(** * The streaming session coordinator of the real-time translator server

    A shallow embedding of [server/index.ts]: the per-connection session
    record, the WebSocket message handler, the debounce timer
    ([scheduleProcessing]), the transcribe-then-translate round trip
    ([processAudioStream]) and the REST endpoint [/api/translate].

    The server runs on a single-threaded event loop.  A handler runs
    without interruption until it reaches an [await] on one of the two
    external calls; there it is suspended, and other handlers (messages,
    timers, other completions) run before it is resumed.  The embedding
    makes this explicit: a [World] holds the session record, the timeouts
    that are scheduled, and the invocations that are suspended at an
    [await]; an [Event] is one turn of the event loop.  An [await] on a
    call of [processAudioStream] that returned without reaching an
    external call resumes within the same turn (its continuation is a
    microtask), so such a turn is taken as a whole.  When several frames
    arrive in one socket write their handlers run before that microtask;
    [tick] below refines the stop handler accordingly, with the
    continuation as a step of its own. *)

From Stdlib Require Import List String ZArith Bool Arith Lia.
Import ListNotations.
Open Scope string_scope.
Open Scope list_scope.

(** ** Data *)

(** A Node [Buffer]: a sequence of bytes. *)
Definition Buffer := list Byte.byte.

(** [sessionData], the object created on each connection. *)
Record SessionData := mkSession {
  audioChunks : list Buffer;
  lastTranscript : string;
  lastTranslation : string;
  isProcessing : bool;
  sourceLanguage : string;
  targetLanguage : string;
  processingTimer : option nat   (* the handle [setTimeout] returned, or null *)
}.

Definition set_audioChunks (v : list Buffer) (s : SessionData) : SessionData :=
  mkSession v (lastTranscript s) (lastTranslation s) (isProcessing s)
            (sourceLanguage s) (targetLanguage s) (processingTimer s).
Definition set_lastTranscript (v : string) (s : SessionData) : SessionData :=
  mkSession (audioChunks s) v (lastTranslation s) (isProcessing s)
            (sourceLanguage s) (targetLanguage s) (processingTimer s).
Definition set_lastTranslation (v : string) (s : SessionData) : SessionData :=
  mkSession (audioChunks s) (lastTranscript s) v (isProcessing s)
            (sourceLanguage s) (targetLanguage s) (processingTimer s).
Definition set_isProcessing (v : bool) (s : SessionData) : SessionData :=
  mkSession (audioChunks s) (lastTranscript s) (lastTranslation s) v
            (sourceLanguage s) (targetLanguage s) (processingTimer s).
Definition set_sourceLanguage (v : string) (s : SessionData) : SessionData :=
  mkSession (audioChunks s) (lastTranscript s) (lastTranslation s) (isProcessing s)
            v (targetLanguage s) (processingTimer s).
Definition set_targetLanguage (v : string) (s : SessionData) : SessionData :=
  mkSession (audioChunks s) (lastTranscript s) (lastTranslation s) (isProcessing s)
            (sourceLanguage s) v (processingTimer s).
Definition set_processingTimer (v : option nat) (s : SessionData) : SessionData :=
  mkSession (audioChunks s) (lastTranscript s) (lastTranslation s) (isProcessing s)
            (sourceLanguage s) (targetLanguage s) v.

(** A WebSocket message after [JSON.parse].  [audio] is the result of
    [Buffer.from(message.audio, 'base64')]: [None] when that call throws
    (the field is missing or is not a string). *)
Record Message := mkMessage {
  mtype : string;
  audio : option Buffer;
  msgSourceLanguage : option string;
  msgTargetLanguage : option string
}.

(** What the two external calls can answer.  [TranscribeOk text] carries
    [transcriptionResponse.text], [ChatOk content] carries
    [choices?.[0]?.message?.content]; both may be absent. *)
Inductive TranscribeResult :=
| TranscribeOk (text : option string)
| TranscribeThrows.

Inductive ChatResult :=
| ChatOk (content : option string)
| ChatThrows.

(** Who awaits [processAudioStream]: the timer callback of
    [scheduleProcessing] or the [stop] branch of the message handler. *)
Inductive Caller := FromTimer | FromStop.

(** Where an invocation is suspended, with the locals it holds there. *)
Inductive Await :=
| AwaitTranscription (combinedAudio : Buffer)
| AwaitTranslation (newText : string).

(** An invocation of [processAudioStream] suspended at an [await]. *)
Record Task := mkTask {
  tid : nat;
  awaiting : Await;
  isFinal : bool;
  caller : Caller
}.

(** Messages the server sends on the socket from an invocation. *)
Inductive ServerMessage :=
| Transcription (sourceText targetText : string) (final : bool)
| ErrorMessage (message : string).

(** What a turn of the event loop does to the outside: a message sent on
    the socket or a call of the external service, each labelled with the
    invocation that performs it. *)
Inductive Output :=
| WsSend (i : nat) (m : ServerMessage)
| CallTranscribe (i : nat) (content : Buffer) (language : string)
| CallChat (i : nat) (system user : string).

Record World := mkWorld {
  sessionData : SessionData;
  timers : list nat;     (* timeouts scheduled, neither fired nor cleared *)
  nextTimer : nat;
  tasks : list Task;     (* invocations suspended at an await *)
  nextTask : nat
}.

Definition upd_session (f : SessionData -> SessionData) (w : World) : World :=
  mkWorld (f (sessionData w)) (timers w) (nextTimer w) (tasks w) (nextTask w).

Inductive Event :=
| EMessage (m : Message)                       (* ws 'message', data parses *)
| EBadMessage                                  (* ws 'message', JSON.parse throws *)
| ETimer (h : nat)                             (* the timeout h fires *)
| ETranscribed (i : nat) (r : TranscribeResult) (* transcribe call of i settles *)
| ETranslated (i : nat) (r : ChatResult)        (* chat call of i settles *)
| EClose.                                      (* ws 'close' *)

(** ** JavaScript helpers *)

(** A string is truthy unless it is empty. *)
Definition truthy (s : string) : bool := negb (s =? "").

(** [x || d] for an optional string [x]. *)
Definition orElse (x : option string) (d : string) : string :=
  match x with
  | Some s => if truthy s then s else d
  | None => d
  end.

(** The system prompt built by the template literal. *)
Definition systemPrompt (src tgt : string) : string :=
  ("You are a professional translator. Translate the following text from "
   ++ src ++ " to " ++ tgt
   ++ ". Only return the translated text, no explanations.")%string.

Definition setTimeout (w : World) : nat * World :=
  let h := nextTimer w in
  (h, mkWorld (sessionData w) (timers w ++ [h]) (S h) (tasks w) (nextTask w)).

Definition clearTimeout (h : nat) (w : World) : World :=
  mkWorld (sessionData w) (remove Nat.eq_dec h (timers w)) (nextTimer w)
          (tasks w) (nextTask w).

(** ** The scheduler and the invocation *)

(** [scheduleProcessing], up to the creation of the timeout; the callback
    is [timerCallback] below. *)
Definition scheduleProcessing (w : World) : World :=
  match processingTimer (sessionData w) with
  | Some _ => w
  | None =>
      let (h, w1) := setTimeout w in
      upd_session (set_processingTimer (Some h)) w1
  end.

(** How a call of an async function comes back to the running handler:
    it has returned, or it is suspended at an [await]. *)
Inductive Outcome := Returned | Suspended.

Definition minAudioSize (isFinal : bool) : Z := if isFinal then 0%Z else 4000%Z.

(** [processAudioStream] from its entry to the first [await]. *)
Definition processAudioStream (final : bool) (k : Caller) (w : World)
  : Outcome * World * list Output :=
  let s := sessionData w in
  if isProcessing s || (List.length (audioChunks s) =? 0)%nat then (Returned, w, [])
  else
    let w1 := upd_session (set_isProcessing true) w in
    let combinedAudio := List.concat (audioChunks (sessionData w1)) in
    if (Z.of_nat (List.length combinedAudio) <? minAudioSize final)%Z && negb final then
      (* isProcessing = false; return; then the finally block *)
      (Returned,
       upd_session (set_isProcessing false)
                   (upd_session (set_isProcessing false) w1), [])
    else
      let i := nextTask w1 in
      (Suspended,
       mkWorld (sessionData w1) (timers w1) (nextTimer w1)
               (tasks w1 ++ [mkTask i (AwaitTranscription combinedAudio) final k])
               (S i),
       [CallTranscribe i combinedAudio (sourceLanguage (sessionData w1))]).

(** The reset of the buffer and of the last-emitted fields, written three
    times in the source (stop branch, clear branch, final invocation). *)
Definition resetUtterance (s : SessionData) : SessionData :=
  set_lastTranslation "" (set_lastTranscript "" (set_audioChunks [] s)).

(** The code after [await processAudioStream(...)] in each caller. *)
Definition afterAwait (k : Caller) (w : World) : World :=
  match k with
  | FromTimer =>
      if (0 <? List.length (audioChunks (sessionData w)))%nat then scheduleProcessing w else w
  | FromStop => upd_session resetUtterance w
  end.

(** [if (isFinal) { ... }] at the end of the try block. *)
Definition clearIfFinal (final : bool) (s : SessionData) : SessionData :=
  if final then resetUtterance s else s.

(** The try block ends normally: final reset, finally block, caller. *)
Definition complete (t : Task) (w : World) : World :=
  afterAwait (caller t)
    (upd_session (set_isProcessing false)
       (upd_session (clearIfFinal (isFinal t)) w)).

(** An awaited call throws: catch block, finally block, caller. *)
Definition fail (t : Task) (w : World) : World * list Output :=
  (afterAwait (caller t) (upd_session (set_isProcessing false) w),
   [WsSend (tid t) (ErrorMessage "Transcription failed")]).

Definition suspend (t : Task) (w : World) : World :=
  mkWorld (sessionData w) (timers w) (nextTimer w) (tasks w ++ [t]) (nextTask w).

(** [processAudioStream] from the transcription's answer on. *)
Definition onTranscribed (t : Task) (r : TranscribeResult) (w : World)
  : World * list Output :=
  match r with
  | TranscribeThrows => fail t w
  | TranscribeOk text =>
      let newText := orElse text "" in
      if truthy newText && negb (newText =? lastTranscript (sessionData w)) then
        let w1 := upd_session (set_lastTranscript newText) w in
        let s1 := sessionData w1 in
        (suspend (mkTask (tid t) (AwaitTranslation newText) (isFinal t) (caller t)) w1,
         [CallChat (tid t) (systemPrompt (sourceLanguage s1) (targetLanguage s1)) newText])
      else (complete t w, [])
  end.

(** [processAudioStream] from the translation's answer on. *)
Definition onTranslated (t : Task) (newText : string) (r : ChatResult) (w : World)
  : World * list Output :=
  match r with
  | ChatThrows => fail t w
  | ChatOk content =>
      let translatedText := orElse content "" in
      let w1 := upd_session (set_lastTranslation translatedText) w in
      (complete t w1, [WsSend (tid t) (Transcription newText translatedText (isFinal t))])
  end.

(** The callback given to [setTimeout] in [scheduleProcessing]. *)
Definition timerCallback (w : World) : World * list Output :=
  let w1 := upd_session (set_processingTimer None) w in
  let s := sessionData w1 in
  if (0 <? List.length (audioChunks s))%nat && negb (isProcessing s) then
    match processAudioStream false FromTimer w1 with
    | (Returned, w2, out) => (afterAwait FromTimer w2, out)
    | (Suspended, w2, out) => (w2, out)
    end
  else (w1, []).

(** ** The message handler *)

(** [if (message.type === 'audio')]; [None] when [Buffer.from] throws. *)
Definition audioBranch (m : Message) (w : World) : option World :=
  if mtype m =? "audio" then
    match audio m with
    | None => None
    | Some audioBuffer =>
        let w1 := upd_session (fun s =>
          set_targetLanguage (orElse (msgTargetLanguage m) "en")
            (set_sourceLanguage (orElse (msgSourceLanguage m) "zh")
               (set_audioChunks (audioChunks s ++ [audioBuffer]) s))) w in
        Some (if negb (isProcessing (sessionData w1)) then scheduleProcessing w1 else w1)
    end
  else Some w.

(** [if (message.type === 'config')] *)
Definition configBranch (m : Message) (w : World) : World :=
  if mtype m =? "config" then
    upd_session (fun s =>
      set_targetLanguage (orElse (msgTargetLanguage m) "en")
        (set_sourceLanguage (orElse (msgSourceLanguage m) "zh") s)) w
  else w.

(** [if (sessionData.processingTimer) { clearTimeout(...); ... = null }] *)
Definition cancelTimer (w : World) : World :=
  match processingTimer (sessionData w) with
  | Some h => upd_session (set_processingTimer None) (clearTimeout h w)
  | None => w
  end.

(** [if (message.type === 'stop')]; when the invocation is suspended, so
    is the handler, and [afterAwait FromStop] runs at the resumption. *)
Definition stopBranch (m : Message) (w : World) : Outcome * World * list Output :=
  if mtype m =? "stop" then
    match processAudioStream true FromStop (cancelTimer w) with
    | (Returned, w1, out) => (Returned, afterAwait FromStop w1, out)
    | (Suspended, w1, out) => (Suspended, w1, out)
    end
  else (Returned, w, []).

(** [if (message.type === 'clear')] *)
Definition clearBranch (m : Message) (w : World) : World :=
  if mtype m =? "clear" then
    cancelTimer (upd_session (fun s => set_isProcessing false (resetUtterance s)) w)
  else w.

(** [ws.on('message', ...)] for a message that parses.  A handler
    suspended in the stop branch has nothing left to do after it resumes:
    its last test, [message.type === 'clear'], is false. *)
Definition onMessage (m : Message) (w : World) : World * list Output :=
  match audioBranch m w with
  | None => (w, [])             (* caught by the handler's catch block *)
  | Some w1 =>
      match stopBranch m (configBranch m w1) with
      | (Returned, w2, out) => (clearBranch m w2, out)
      | (Suspended, w2, out) => (w2, out)
      end
  end.

(** [ws.on('close', ...)]: the timeout is cleared, the field is not. *)
Definition onClose (w : World) : World :=
  match processingTimer (sessionData w) with
  | Some h => clearTimeout h w
  | None => w
  end.

(** ** The event loop *)

Definition findTask (i : nat) (w : World) : option Task :=
  find (fun t => (tid t =? i)%nat) (tasks w).

Definition dropTask (i : nat) (w : World) : World :=
  mkWorld (sessionData w) (timers w) (nextTimer w)
          (filter (fun t => negb (tid t =? i)%nat) (tasks w)) (nextTask w).

Definition step (w : World) (e : Event) : World * list Output :=
  match e with
  | EMessage m => onMessage m w
  | EBadMessage => (w, [])
  | ETimer h =>
      if existsb (Nat.eqb h) (timers w) then timerCallback (clearTimeout h w)
      else (w, [])
  | ETranscribed i r =>
      match findTask i w with
      | Some t =>
          match awaiting t with
          | AwaitTranscription _ => onTranscribed t r (dropTask i w)
          | AwaitTranslation _ => (w, [])
          end
      | None => (w, [])
      end
  | ETranslated i r =>
      match findTask i w with
      | Some t =>
          match awaiting t with
          | AwaitTranslation newText => onTranslated t newText r (dropTask i w)
          | AwaitTranscription _ => (w, [])
          end
      | None => (w, [])
      end
  | EClose => (onClose w, [])
  end.

Fixpoint run (es : list Event) (w : World) : World * list Output :=
  match es with
  | [] => (w, [])
  | e :: es' =>
      let (w1, o1) := step w e in
      let (w2, o2) := run es' w1 in
      (w2, o1 ++ o2)
  end.

(** The world right after [wss.on('connection', ...)] has run. *)
Definition connection : World :=
  mkWorld (mkSession [] "" "" false "zh" "en" None) [] 0 [] 0.

Definition after (es : list Event) : World := fst (run es connection).
Definition outputs (es : list Event) : list Output := snd (run es connection).

(** ** The REST endpoint [POST /api/translate] *)






(** ** Predicates used in the statements *)

(** Every scheduled timeout is the one [processingTimer] refers to. *)
Definition timer_inv (w : World) : Prop :=
  timers w = [] \/
  exists h, timers w = [h] /\ processingTimer (sessionData w) = Some h.

(** At most one invocation is suspended, and the flag is up while it is. *)
Definition single_flight (w : World) : Prop :=
  tasks w = [] \/
  exists t, tasks w = [t] /\ isProcessing (sessionData w) = true.

Definition is_clear (e : Event) : bool :=
  match e with
  | EMessage m => mtype m =? "clear"
  | _ => false
  end.

Definition no_clear (es : list Event) : bool := forallb (fun e => negb (is_clear e)) es.

(** The invocation an output belongs to. *)
Definition invocationOf (o : Output) : nat :=
  match o with
  | WsSend i _ => i
  | CallTranscribe i _ _ => i
  | CallChat i _ _ => i
  end.

(** Invocations numbered [n] or more are the ones that start from [w] on. *)
Definition started_from (n : nat) (w : World) : Prop :=
  n <= nextTask w /\ Forall (fun t => n <= tid t) (tasks w).

(** The buffers the audio messages of a trace append, in order. *)
Definition receivedBy (e : Event) : list Buffer :=
  match e with
  | EMessage m =>
      if mtype m =? "audio" then
        match audio m with
        | Some b => [b]
        | None => []
        end
      else []
  | _ => []
  end.

Definition received (es : list Event) : list Buffer := flat_map receivedBy es.

(** [b] is the concatenation of consecutive buffers of [l]. *)
Definition concat_of_segment (b : Buffer) (l : list Buffer) : Prop :=
  exists pre seg post, l = pre ++ seg ++ post /\ b = List.concat seg.

Definition transcribed_from (l : list Buffer) (o : Output) : Prop :=
  match o with
  | CallTranscribe _ b _ => concat_of_segment b l
  | _ => True
  end.

Definition is_returned (o : Outcome) : bool :=
  match o with
  | Returned => true
  | Suspended => false
  end.

Definition from_stop (k : Caller) : bool :=
  match k with
  | FromStop => true
  | FromTimer => false
  end.

Definition is_some {A} (x : option A) : bool :=
  match x with
  | Some _ => true
  | None => false
  end.

(** Taken in [w], the event [e] runs a stop handler to its end: a stop
    message whose [processAudioStream] call returns at once, or the
    settling of an external call that ends an invocation awaited by a
    stop handler. *)
Definition completesStop (w : World) (e : Event) : bool :=
  match e with
  | EMessage m =>
      (mtype m =? "stop")
      && is_returned (fst (fst (processAudioStream true FromStop (cancelTimer w))))
  | ETranscribed i _ | ETranslated i _ =>
      match findTask i w with
      | Some t => from_stop (caller t) && negb (is_some (findTask i (fst (step w e))))
      | None => false
      end
  | _ => false
  end.

(** The stop message arrives while the flag is up. *)
Definition stopWhileProcessing (w : World) (e : Event) : bool :=
  match e with
  | EMessage _ => isProcessing (sessionData w)
  | _ => false
  end.

(** A transcription call is made on the concatenation of [cs]. *)
Definition transcribes (cs : list Buffer) (o : Output) : Prop :=
  match o with
  | CallTranscribe _ b _ => b = List.concat cs
  | _ => True
  end.

(** The buffer after a turn: what it was, with the chunk the turn
    received appended, or empty. *)
Definition grown_or_emptied (cs : list Buffer) (e : Event) (w' : World) : Prop :=
  audioChunks (sessionData w') = cs ++ receivedBy e
  \/ audioChunks (sessionData w') = [].

(** ** Further predicates: what the server keeps and what it emits *)

(** The flag is up only while some invocation is suspended. *)
Definition flag_backed (w : World) : Prop :=
  isProcessing (sessionData w) = true -> tasks w <> [].

(** Both language codes are non-empty. *)
Definition languages_set (w : World) : Prop :=
  sourceLanguage (sessionData w) <> "" /\ targetLanguage (sessionData w) <> "".

Definition language_given (o : Output) : Prop :=
  match o with
  | CallTranscribe _ _ l => l <> ""
  | _ => True
  end.

(** Every invocation that awaits its translation holds a non-empty text. *)
Definition texts_nonempty (w : World) : Prop :=
  Forall (fun t => match awaiting t with
                   | AwaitTranslation n => n <> ""
                   | AwaitTranscription _ => True
                   end) (tasks w).

Definition source_nonempty (o : Output) : Prop :=
  match o with
  | WsSend _ (Transcription s _ _) => s <> ""
  | _ => True
  end.

Definition is_send (o : Output) : bool :=
  match o with
  | WsSend _ _ => true
  | _ => false
  end.

Definition is_transcription (o : Output) : bool :=
  match o with
  | WsSend _ (Transcription _ _ _) => true
  | _ => false
  end.

Definition is_error (o : Output) : bool :=
  match o with
  | WsSend _ (ErrorMessage _) => true
  | _ => false
  end.

Definition is_transcribe_call (o : Output) : bool :=
  match o with
  | CallTranscribe _ _ _ => true
  | _ => false
  end.

Definition is_chat_call (o : Output) : bool :=
  match o with
  | CallChat _ _ _ => true
  | _ => false
  end.

Definition count (p : Output -> bool) (os : list Output) : nat :=
  List.length (filter p os).

Definition awaits_transcription (t : Task) : bool :=
  match awaiting t with
  | AwaitTranscription _ => true
  | AwaitTranslation _ => false
  end.

(** An external call settles by throwing. *)
Definition throws (e : Event) : bool :=
  match e with
  | ETranscribed _ TranscribeThrows => true
  | ETranslated _ ChatThrows => true
  | _ => false
  end.

Definition is_stop (e : Event) : bool :=
  match e with
  | EMessage m => mtype m =? "stop"
  | _ => false
  end.

Definition is_close (e : Event) : bool :=
  match e with
  | EClose => true
  | _ => false
  end.

(** Neither a stop nor a clear message. *)
Definition keeps_buffer (e : Event) : bool := negb (is_stop e) && negb (is_clear e).

(** Every suspended invocation is a non-final one started by the timer. *)
Definition only_timer_tasks (w : World) : Prop :=
  Forall (fun t => isFinal t = false /\ caller t = FromTimer) (tasks w).

(** A transcription call is made on all the chunks up to some point of [l]. *)
Definition transcribes_prefix (l : list Buffer) (o : Output) : Prop :=
  match o with
  | CallTranscribe _ b _ => exists pre post, l = pre ++ post /\ b = List.concat pre
  | _ => True
  end.

(** The scheduled timeouts are exactly the one the field refers to. *)
Definition timer_exact (w : World) : Prop :=
  timers w = match processingTimer (sessionData w) with
             | Some h => [h]
             | None => []
             end.

(** Buffered audio has a timer armed for it or the flag up. *)
Definition served (w : World) : Prop :=
  audioChunks (sessionData w) <> [] ->
  processingTimer (sessionData w) <> None \/ isProcessing (sessionData w) = true.

(** What one turn of the event loop does to the set of suspended
    invocations and to the outside: nothing, or one invocation starts
    with a transcription call, or one moves on to its translation with a
    chat call, or one ends, silently or with one message. *)
Inductive Turn (w w' : World) (out : list Output) : Prop :=
| TurnQuiet :
    tasks w' = tasks w -> out = [] -> Turn w w' out
| TurnStart (t : Task) (i : nat) (b : Buffer) (l : string) :
    awaits_transcription t = true -> tasks w' = tasks w ++ [t] ->
    out = [CallTranscribe i b l] -> Turn w w' out
| TurnTranslate (t t' : Task) (i : nat) (s u : string) :
    findTask i w = Some t -> awaits_transcription t = true ->
    awaits_transcription t' = false -> tasks w' = tasks (dropTask i w) ++ [t'] ->
    out = [CallChat i s u] -> Turn w w' out
| TurnSkip (t : Task) (i : nat) :
    findTask i w = Some t -> awaits_transcription t = true ->
    tasks w' = tasks (dropTask i w) -> out = [] -> Turn w w' out
| TurnFail (t : Task) (i : nat) (msg : string) :
    findTask i w = Some t -> tasks w' = tasks (dropTask i w) ->
    out = [WsSend i (ErrorMessage msg)] -> Turn w w' out
| TurnEmit (t : Task) (i : nat) (s u : string) (f : bool) :
    findTask i w = Some t -> awaits_transcription t = false ->
    tasks w' = tasks (dropTask i w) ->
    out = [WsSend i (Transcription s u f)] -> Turn w w' out.

(** The suspended invocations that satisfy [q]. *)
Definition pending (q : Task -> bool) (w : World) : nat :=
  List.length (filter q (tasks w)).

(** ** The client's handler of server messages ([ws.onmessage] in App.tsx) *)

(** The two clock readings the handler makes: [Date.now()] in decimal
    and [new Date()]. *)
Record Clock := mkClock {
  dateNow : string;
  newDate : string
}.

Record TranscriptPair := mkPair {
  pairId : string;
  pairSourceText : string;
  pairTargetText : string;
  timestamp : string;
  isStreaming : bool      (* absent on a final pair, hence falsy *)
}.

(** The React state the handler writes. *)
Record ClientState := mkClient {
  transcripts : list TranscriptPair;
  currentPair : option TranscriptPair
}.

(** [ws.onmessage] for the message [m] the server sent, JSON-encoded by
    the server and decoded by the client. *)
Definition clientOnMessage (c : Clock) (m : ServerMessage) (st : ClientState)
  : ClientState :=
  match m with
  | Transcription sourceText targetText final =>
      if final then
        mkClient
          (if truthy sourceText || truthy targetText
           then transcripts st
                ++ [mkPair ("final-" ++ dateNow c)%string sourceText targetText
                           (newDate c) false]
           else transcripts st)
          None
      else
        mkClient (transcripts st)
                 (Some (mkPair ("streaming-" ++ dateNow c)%string sourceText targetText
                               (newDate c) true))
  | ErrorMessage _ => st
  end.

(** The messages among the outputs of the server, in order. *)
Definition sent (os : list Output) : list ServerMessage :=
  flat_map (fun o => match o with
                     | WsSend _ m => [m]
                     | _ => []
                     end) os.

(** The client handles the messages one by one, reading the clock at each. *)
Fixpoint clientRun (clock : nat -> Clock) (n : nat) (ms : list ServerMessage)
  (st : ClientState) : ClientState :=
  match ms with
  | [] => st
  | m :: ms' => clientRun clock (S n) ms' (clientOnMessage (clock n) m st)
  end.

Definition clientStart : ClientState := mkClient [] None.

Definition is_final_message (m : ServerMessage) : bool :=
  match m with
  | Transcription _ _ final => final
  | ErrorMessage _ => false
  end.

(** The final results among the messages, as (source, target) texts. *)
Definition finalResults (ms : list ServerMessage) : list (string * string) :=
  flat_map (fun m => match m with
                     | Transcription s u true => [(s, u)]
                     | _ => []
                     end) ms.

Definition pairTexts (p : TranscriptPair) : string * string :=
  (pairSourceText p, pairTargetText p).

Definition message_source_nonempty (m : ServerMessage) : Prop :=
  match m with
  | Transcription s _ _ => s <> ""
  | ErrorMessage _ => True
  end.

(** The event by which the call awaited by [t] throws. *)
Definition failureOf (t : Task) : Event :=
  match awaiting t with
  | AwaitTranscription _ => ETranscribed (tid t) TranscribeThrows
  | AwaitTranslation _ => ETranslated (tid t) ChatThrows
  end.

Definition known_type (m : Message) : bool :=
  (mtype m =? "audio") || (mtype m =? "config") || (mtype m =? "stop")
  || (mtype m =? "clear").

(** ** Frames delivered in one socket write *)

(** The event loop with the continuation of a stop handler as a step of
    its own.  When [processAudioStream] returns at once, the code after
    [await processAudioStream(...)] in the stop branch is a microtask;
    the handlers of the frames that arrived in the same socket write run
    before it.  [resuming] counts the stop handlers that wait at that
    [await]; they all run the same code when they resume. *)
Record Loop := mkLoop {
  world : World;
  resuming : nat
}.

Inductive Tick :=
| TEvent (e : Event)     (* a turn of the event loop, up to the awaits *)
| TResume.               (* a waiting stop handler resumes after its await *)

(** The message handler up to its [await]: the world, the outputs, and
    the number of handlers (0 or 1) left waiting to resume in a
    microtask.  A handler whose invocation is suspended resumes when the
    invocation ends, as in [step]. *)
Definition handlerToAwait (m : Message) (w : World) : World * list Output * nat :=
  match audioBranch m w with
  | None => (w, [], 0)
  | Some w1 =>
      let w2 := configBranch m w1 in
      if mtype m =? "stop" then
        match processAudioStream true FromStop (cancelTimer w2) with
        | (Returned, w3, out) => (w3, out, 1)
        | (Suspended, w3, out) => (w3, out, 0)
        end
      else (clearBranch m w2, [], 0)
  end.

(** After its [await] a stop handler resets the utterance; its last
    test, [message.type === 'clear'], is false. *)
Definition tick (l : Loop) (t : Tick) : Loop * list Output :=
  match t with
  | TEvent (EMessage m) =>
      match handlerToAwait m (world l) with
      | (w, out, d) => (mkLoop w (resuming l + d), out)
      end
  | TEvent e =>
      let (w, out) := step (world l) e in (mkLoop w (resuming l), out)
  | TResume =>
      match resuming l with
      | 0 => (l, [])
      | S n => (mkLoop (afterAwait FromStop (world l)) n, [])
      end
  end.

Fixpoint ticks (ts : list Tick) (l : Loop) : Loop * list Output :=
  match ts with
  | [] => (l, [])
  | t :: ts' =>
      let (l1, o1) := tick l t in
      let (l2, o2) := ticks ts' l1 in
      (l2, o1 ++ o2)
  end.

Definition opened : Loop := mkLoop connection 0.



(** ** Inputs used in the examples *)

Definition silence (n : nat) : Buffer := repeat Byte.x00 n.

Definition audioMsg (b : Buffer) : Message :=
  mkMessage "audio" (Some b) (Some "zh") (Some "en").

Definition stopMsg (b : option Buffer) : Message :=
  mkMessage "stop" b (Some "zh") (Some "en").

Definition clearMsg : Message := mkMessage "clear" None None None.

Definition promptZhEn : string := systemPrompt "zh" "en".

(** * Properties *)

(** ** What each function does to each part of the world *)

Lemma upd_session_parts (f : SessionData -> SessionData) (w : World) :
  timers (upd_session f w) = timers w /\ tasks (upd_session f w) = tasks w /\
  nextTask (upd_session f w) = nextTask w /\ nextTimer (upd_session f w) = nextTimer w.
Proof. now unfold upd_session. Qed.

Lemma processAudioStream_below_floor (k : Caller) (w : World) :
  (Z.of_nat (List.length (List.concat (audioChunks (sessionData w)))) < 4000)%Z ->
  processAudioStream false k w =
    (Returned,
     if isProcessing (sessionData w) || (List.length (audioChunks (sessionData w)) =? 0)%nat
     then w else upd_session (set_isProcessing false) w,
     []).
Proof.
  intros Hlt. unfold processAudioStream.
  destruct (isProcessing (sessionData w) || _) eqn:G; [reflexivity|].
  cbn [minAudioSize negb andb upd_session sessionData set_isProcessing audioChunks].
  apply Z.ltb_lt in Hlt. rewrite Hlt. reflexivity.
Qed.

(** C5. A non-final invocation over fewer than 4000 accumulated bytes is
    skipped: [processAudioStream] returns without suspending, it calls no
    external service, the buffer and the rest of the session are as they
    were (once past the guard the flag is raised and then released, which
    leaves the world unchanged), and a timer that fires below the floor
    produces no call and keeps the buffer. *)
Theorem minimum_size_policy (k : Caller) (w : World) :
  (Z.of_nat (List.length (List.concat (audioChunks (sessionData w)))) < 4000)%Z ->
  fst (fst (processAudioStream false k w)) = Returned
  /\ snd (processAudioStream false k w) = []
  /\ tasks (snd (fst (processAudioStream false k w))) = tasks w
  /\ audioChunks (sessionData (snd (fst (processAudioStream false k w))))
     = audioChunks (sessionData w)
  /\ (isProcessing (sessionData w) = false ->
      isProcessing (sessionData (snd (fst (processAudioStream false k w)))) = false
      /\ snd (fst (processAudioStream false k w)) = w)
  /\ (forall h, snd (step w (ETimer h)) = []
                /\ tasks (fst (step w (ETimer h))) = tasks w
                /\ audioChunks (sessionData (fst (step w (ETimer h))))
                   = audioChunks (sessionData w)).
Proof.
  intros Hlt. rewrite (processAudioStream_below_floor k w Hlt). cbn [fst snd].
  split; [reflexivity|]. split; [reflexivity|].
  split; [now destruct (_ || _)|]. split; [now destruct (_ || _)|].
  split.
  - intros P. destruct w as [[c lt ltr p sl tl pt] ts nt tk ntk]. cbn in *. subst p.
    now destruct (_ =? _)%nat.
  - intros h. cbn [step]. destruct (existsb _ _); [|now repeat split].
    unfold timerCallback. destruct (_ && _); [|now repeat split].
    rewrite processAudioStream_below_floor by exact Hlt. cbn [fst snd].
    split; [reflexivity|].
    unfold afterAwait, scheduleProcessing.
    repeat match goal with |- context [if ?b then _ else _] => destruct b end;
      repeat match goal with |- context [match ?o with Some _ => _ | None => _ end] =>
        destruct o end; now split.
Qed.

Lemma minimum_size_policy_witness :
  snd (processAudioStream false FromTimer
         (fst (step connection (EMessage (audioMsg (silence 3999)))))) = []
  /\ snd (fst (processAudioStream false FromTimer
         (fst (step connection (EMessage (audioMsg (silence 3999)))))))
     = fst (step connection (EMessage (audioMsg (silence 3999)))).
Proof.
  pose proof (minimum_size_policy FromTimer
                (fst (step connection (EMessage (audioMsg (silence 3999)))))) as H.
  assert (Hlt : (Z.of_nat (List.length (List.concat (audioChunks (sessionData
             (fst (step connection (EMessage (audioMsg (silence 3999))))))))) < 4000)%Z)
    by (vm_compute; reflexivity).
  destruct (H Hlt) as (_ & Ho & _ & _ & Hw & _).
  split; [exact Ho | exact (proj2 (Hw eq_refl))].
Defined.

(** ** The stop message *)

Lemma stop_message_step (m : Message) (w : World) :
  mtype m = "stop" ->
  step w (EMessage m) =
    match processAudioStream true FromStop (cancelTimer w) with
    | (Returned, w1, out) => (afterAwait FromStop w1, out)
    | (Suspended, w1, out) => (w1, out)
    end.
Proof.
  intros H. cbn [step]. unfold onMessage, audioBranch, configBranch, stopBranch, clearBranch.
  rewrite H. cbn [String.eqb Ascii.eqb Bool.eqb].
  destruct (processAudioStream true FromStop (cancelTimer w)) as [[[|] w1] out]; reflexivity.
Qed.

Lemma cancelTimer_session (w : World) :
  sessionData (cancelTimer w) = set_processingTimer None (sessionData w)
  /\ tasks (cancelTimer w) = tasks w /\ nextTask (cancelTimer w) = nextTask w.
Proof.
  unfold cancelTimer. destruct (processingTimer (sessionData w)) eqn:E; cbn.
  - now repeat split.
  - repeat split. destruct w as [[c lt ltr p sl tl pt] ts nt tk ntk]. cbn in *. now subst.
Qed.

(** C3, as stated, fails: a stop message on a session whose buffer holds
    no chunk calls no external service and starts no invocation. *)
Lemma stop_with_empty_buffer_calls_nothing :
  snd (step connection (EMessage (stopMsg None))) = []
  /\ tasks (fst (step connection (EMessage (stopMsg None)))) = [].
Proof. split; reflexivity. Qed.

(** C3, amended.  A stop message received while the flag is down and the
    buffer holds at least one chunk starts a final invocation that calls
    the transcription service on the concatenation of the buffered chunks
    whatever its size (below 4000 bytes, and zero bytes when every chunk
    is empty); when the buffer holds no chunk or the flag is up, the stop
    message starts no invocation and calls nothing. *)
Theorem stop_forces_final_invocation (m : Message) (w : World) :
  mtype m = "stop" ->
  (isProcessing (sessionData w) = false -> audioChunks (sessionData w) <> [] ->
   snd (step w (EMessage m))
   = [CallTranscribe (nextTask w) (List.concat (audioChunks (sessionData w)))
                     (sourceLanguage (sessionData w))]
   /\ tasks (fst (step w (EMessage m)))
      = tasks w ++ [mkTask (nextTask w)
                      (AwaitTranscription (List.concat (audioChunks (sessionData w))))
                      true FromStop])
  /\ (isProcessing (sessionData w) = true \/ audioChunks (sessionData w) = [] ->
      snd (step w (EMessage m)) = [] /\ tasks (fst (step w (EMessage m))) = tasks w).
Proof.
  intros Hm. rewrite (stop_message_step m w Hm).
  destruct (cancelTimer_session w) as (Hs & Ht & Hn).
  unfold processAudioStream. rewrite Hs.
  cbn [isProcessing audioChunks set_processingTimer].
  split.
  - intros Hp Hc. rewrite Hp.
    destruct (audioChunks (sessionData w)) as [|c cs] eqn:Ec; [congruence|].
    cbn [List.length Nat.eqb orb minAudioSize negb andb].
    rewrite Bool.andb_false_r. cbn [fst snd tasks upd_session nextTask sessionData
      set_isProcessing audioChunks sourceLanguage].
    rewrite Hs, Ht, Hn. cbn [audioChunks sourceLanguage set_processingTimer].
    rewrite Ec. now split.
  - intros [Hp | Hc].
    + rewrite Hp. cbn [orb fst snd afterAwait]. split; [reflexivity|].
      now rewrite (proj1 (proj2 (upd_session_parts _ _))).
    + rewrite Hc. cbn [List.length Nat.eqb]. rewrite Bool.orb_true_r.
      cbn [fst snd afterAwait]. split; [reflexivity|].
      now rewrite (proj1 (proj2 (upd_session_parts _ _))).
Qed.

(** One empty chunk is buffered: the final invocation transcribes zero bytes. *)
Lemma stop_forces_final_invocation_witness :
  snd (step (fst (step connection (EMessage (audioMsg [])))) (EMessage (stopMsg None)))
  = [CallTranscribe 0 [] "zh"].
Proof.
  refine (proj1 (proj1 (stop_forces_final_invocation (stopMsg None)
            (fst (step connection (EMessage (audioMsg [])))) eq_refl) eq_refl _)).
  cbn. discriminate.
Defined.

(** The stop branch never reads [message.audio] nor the languages of the
    message: two stop messages are handled alike. *)
Lemma stop_ignores_its_fields (a a' : option Buffer) (sl sl' tl tl' : option string)
  (w : World) :
  step w (EMessage (mkMessage "stop" a sl tl))
  = step w (EMessage (mkMessage "stop" a' sl' tl')).
Proof. now rewrite !stop_message_step. Qed.

(** C7 fails on the code: 1000 bytes are buffered and the stop message
    carries 2000 more; the final invocation transcribes the 1000 buffered
    bytes only, and the fragment of the stop message is in no buffer. *)
Theorem stop_drops_its_fragment :
  outputs [EMessage (audioMsg (silence 1000));
           EMessage (stopMsg (Some (repeat Byte.xff 2000)))]
  = [CallTranscribe 0 (silence 1000) "zh"]
  /\ audioChunks (sessionData (after [EMessage (audioMsg (silence 1000));
                                      EMessage (stopMsg (Some (repeat Byte.xff 2000)))]))
     = [silence 1000].
Proof. split; vm_compute; reflexivity. Qed.

(** ** Runs of the event loop on given inputs *)

(** C1 fails on the code.  Invocation 0 is suspended at the transcription
    call when a clear message lowers the flag; the next audio message then
    arms the timer, and when it fires invocation 1 passes the guard and
    starts: two invocations are active, and the transcription service has
    been called twice with no answer in between. *)
Theorem clear_breaks_single_flight :
  tasks (after [EMessage (audioMsg (silence 4000)); ETimer 0;
                EMessage clearMsg;
                EMessage (audioMsg (silence 4000)); ETimer 1])
  = [mkTask 0 (AwaitTranscription (silence 4000)) false FromTimer;
     mkTask 1 (AwaitTranscription (silence 4000)) false FromTimer]
  /\ outputs [EMessage (audioMsg (silence 4000)); ETimer 0;
              EMessage clearMsg;
              EMessage (audioMsg (silence 4000)); ETimer 1]
     = [CallTranscribe 0 (silence 4000) "zh"; CallTranscribe 1 (silence 4000) "zh"].
Proof. split; vm_compute; reflexivity. Qed.

(** C2 fails on the code.  The transcription answers "hello", the field
    [lastTranscript] is set at once, and the translation call then throws:
    an error message is sent, no transcription message is, and
    [lastTranscript] keeps the text that was never emitted (while
    [lastTranslation] is untouched).  When the next invocation transcribes
    the same text it emits nothing either. *)
Theorem translation_failure_keeps_new_transcript :
  lastTranscript (sessionData (after [EMessage (audioMsg (silence 4000)); ETimer 0])) = ""
  /\ outputs [EMessage (audioMsg (silence 4000)); ETimer 0;
              ETranscribed 0 (TranscribeOk (Some "hello")); ETranslated 0 ChatThrows]
     = [CallTranscribe 0 (silence 4000) "zh"; CallChat 0 promptZhEn "hello";
        WsSend 0 (ErrorMessage "Transcription failed")]
  /\ lastTranscript (sessionData (after
       [EMessage (audioMsg (silence 4000)); ETimer 0;
        ETranscribed 0 (TranscribeOk (Some "hello")); ETranslated 0 ChatThrows]))
     = "hello"
  /\ lastTranslation (sessionData (after
       [EMessage (audioMsg (silence 4000)); ETimer 0;
        ETranscribed 0 (TranscribeOk (Some "hello")); ETranslated 0 ChatThrows]))
     = ""
  /\ outputs [EMessage (audioMsg (silence 4000)); ETimer 0;
              ETranscribed 0 (TranscribeOk (Some "hello")); ETranslated 0 ChatThrows;
              ETimer 1; ETranscribed 1 (TranscribeOk (Some "hello"))]
     = [CallTranscribe 0 (silence 4000) "zh"; CallChat 0 promptZhEn "hello";
        WsSend 0 (ErrorMessage "Transcription failed");
        CallTranscribe 1 (silence 4000) "zh"].
Proof. repeat split; vm_compute; reflexivity. Qed.

(** C4, as stated, fails: a non-final invocation over 4000 buffered bytes
    runs to its end and the buffer still holds the chunk; the next
    non-final invocation transcribes the same bytes again. *)
Lemma non_final_invocation_keeps_buffer :
  audioChunks (sessionData (after
    [EMessage (audioMsg (silence 4000)); ETimer 0;
     ETranscribed 0 (TranscribeOk (Some "hello")); ETranslated 0 (ChatOk (Some "bonjour"))]))
  = [silence 4000]
  /\ outputs [EMessage (audioMsg (silence 4000)); ETimer 0;
              ETranscribed 0 (TranscribeOk (Some "hello"));
              ETranslated 0 (ChatOk (Some "bonjour")); ETimer 1]
     = [CallTranscribe 0 (silence 4000) "zh"; CallChat 0 promptZhEn "hello";
        WsSend 0 (Transcription "hello" "bonjour" false);
        CallTranscribe 1 (silence 4000) "zh"].
Proof. split; vm_compute; reflexivity. Qed.

(** C8, as stated, fails: invocation 0 is suspended over the buffered
    audio when the clear message arrives; when its calls are answered it
    sends a transcription message for that audio, and when its call throws
    it sends an error message. *)
Lemma clear_does_not_silence_invocation_in_flight :
  snd (run [ETranscribed 0 (TranscribeOk (Some "hello"));
            ETranslated 0 (ChatOk (Some "bonjour"))]
           (after [EMessage (audioMsg (silence 4000)); ETimer 0; EMessage clearMsg]))
  = [CallChat 0 promptZhEn "hello"; WsSend 0 (Transcription "hello" "bonjour" false)]
  /\ snd (run [ETranscribed 0 TranscribeThrows]
              (after [EMessage (audioMsg (silence 4000)); ETimer 0; EMessage clearMsg]))
     = [WsSend 0 (ErrorMessage "Transcription failed")]
  /\ nextTask (after [EMessage (audioMsg (silence 4000)); ETimer 0]) = 1.
Proof. repeat split; vm_compute; reflexivity. Qed.

(** ** The REST endpoint *)




(** ** The debounce timer *)

(** Case analysis on the tests a function body makes. *)
Ltac split_tests :=
  repeat match goal with
         | |- context [if ?b then _ else _] => destruct b eqn:?
         | |- context [match ?o with Some _ => _ | None => _ end] => destruct o eqn:?
         end.

Lemma timer_inv_frame (w w' : World) :
  timer_inv w -> timers w' = timers w ->
  processingTimer (sessionData w') = processingTimer (sessionData w) ->
  timer_inv w'.
Proof. unfold timer_inv. intros H -> ->. exact H. Qed.

Lemma timer_inv_none (w : World) :
  timer_inv w -> processingTimer (sessionData w) = None -> timers w = [].
Proof. intros [H | (h & _ & H)] E; [exact H | congruence]. Qed.

Lemma timer_inv_some (w : World) (h : nat) :
  timer_inv w -> processingTimer (sessionData w) = Some h ->
  remove Nat.eq_dec h (timers w) = [].
Proof.
  intros [H | (h' & H & E')] E; rewrite H; [reflexivity|].
  assert (h' = h) by congruence. subst. cbn. now destruct (Nat.eq_dec h h).
Qed.

Lemma timer_inv_empty (w : World) : timers w = [] -> timer_inv w.
Proof. now left. Qed.

Lemma processAudioStream_timers (final : bool) (k : Caller) (w : World) :
  timers (snd (fst (processAudioStream final k w))) = timers w
  /\ processingTimer (sessionData (snd (fst (processAudioStream final k w))))
     = processingTimer (sessionData w).
Proof. unfold processAudioStream. split_tests; now split. Qed.

Lemma scheduleProcessing_timer_inv (w : World) :
  timer_inv w -> timer_inv (scheduleProcessing w).
Proof.
  intros H. unfold scheduleProcessing.
  destruct (processingTimer (sessionData w)) eqn:E; [exact H|].
  right. exists (nextTimer w). cbn. rewrite (timer_inv_none w H E). now split.
Qed.

Lemma afterAwait_timer_inv (k : Caller) (w : World) :
  timer_inv w -> timer_inv (afterAwait k w).
Proof.
  intros H. destruct k; cbn [afterAwait].
  - destruct (_ <? _)%nat; [now apply scheduleProcessing_timer_inv | exact H].
  - now apply (timer_inv_frame w).
Qed.

Lemma complete_timer_inv (t : Task) (w : World) : timer_inv w -> timer_inv (complete t w).
Proof.
  intros H. apply afterAwait_timer_inv. apply (timer_inv_frame w _ H); [reflexivity|].
  cbn. now destruct (isFinal t).
Qed.

Lemma fail_timer_inv (t : Task) (w : World) : timer_inv w -> timer_inv (fst (fail t w)).
Proof. intros H. apply afterAwait_timer_inv. now apply (timer_inv_frame w _ H). Qed.

Lemma onTranscribed_timer_inv (t : Task) (r : TranscribeResult) (w : World) :
  timer_inv w -> timer_inv (fst (onTranscribed t r w)).
Proof.
  intros H. destruct r as [x|]; cbn [onTranscribed]; [|now apply fail_timer_inv].
  destruct (_ && _); cbn [fst]; [now apply (timer_inv_frame w _ H) | now apply complete_timer_inv].
Qed.

Lemma onTranslated_timer_inv (t : Task) (n : string) (r : ChatResult) (w : World) :
  timer_inv w -> timer_inv (fst (onTranslated t n r w)).
Proof.
  intros H. destruct r as [x|]; cbn [onTranslated]; [|now apply fail_timer_inv].
  cbn [fst]. apply complete_timer_inv. now apply (timer_inv_frame w _ H).
Qed.

Lemma cancelTimer_timers (w : World) :
  timer_inv w ->
  timers (cancelTimer w) = [] /\ processingTimer (sessionData (cancelTimer w)) = None.
Proof.
  intros H. unfold cancelTimer. destruct (processingTimer (sessionData w)) eqn:E.
  - cbn. now rewrite (timer_inv_some w n H E).
  - now rewrite (timer_inv_none w H E).
Qed.

Lemma fired_timer_is_the_only_one (w : World) (h : nat) :
  timer_inv w -> existsb (Nat.eqb h) (timers w) = true ->
  timers (clearTimeout h w) = [].
Proof.
  intros [H | (h' & H & E)] Hin; rewrite H in Hin; cbn in Hin; [discriminate|].
  rewrite Bool.orb_false_r in Hin. apply Nat.eqb_eq in Hin. subst h'.
  cbn. rewrite H. cbn. now destruct (Nat.eq_dec h h).
Qed.

Lemma timerCallback_timer_inv (w : World) :
  timers w = [] -> timer_inv (fst (timerCallback w)).
Proof.
  intros H. unfold timerCallback.
  set (w1 := upd_session (set_processingTimer None) w).
  assert (H1 : timer_inv w1) by now left.
  destruct (_ && _); [|exact H1].
  pose proof (processAudioStream_timers false FromTimer w1) as [Ht Hp].
  destruct (processAudioStream false FromTimer w1) as [[[|] w2] out]; cbn [fst snd] in *.
  - apply afterAwait_timer_inv. now apply (timer_inv_frame w1).
  - now apply (timer_inv_frame w1).
Qed.

Lemma audioBranch_timer_inv (m : Message) (w w1 : World) :
  timer_inv w -> audioBranch m w = Some w1 -> timer_inv w1.
Proof.
  intros H. unfold audioBranch. destruct (mtype m =? "audio"); [|congruence].
  destruct (audio m); [|discriminate]. intros [= <-].
  destruct (negb _); [apply scheduleProcessing_timer_inv|]; now apply (timer_inv_frame w _ H).
Qed.

Lemma configBranch_timer_inv (m : Message) (w : World) :
  timer_inv w -> timer_inv (configBranch m w).
Proof.
  intros H. unfold configBranch. destruct (_ =? _); [|exact H].
  now apply (timer_inv_frame w _ H).
Qed.

Lemma stopBranch_timers (m : Message) (w : World) :
  timer_inv w ->
  timer_inv (snd (fst (stopBranch m w)))
  /\ (mtype m = "stop" -> timers (snd (fst (stopBranch m w))) = []).
Proof.
  intros H. unfold stopBranch. destruct (String.eqb_spec (mtype m) "stop") as [E|E].
  - destruct (cancelTimer_timers w H) as [Hc Hn].
    pose proof (processAudioStream_timers true FromStop (cancelTimer w)) as [Ht Hp].
    destruct (processAudioStream true FromStop (cancelTimer w)) as [[[|] w2] out];
      cbn [fst snd afterAwait] in *; rewrite Hc in Ht.
    + split; [apply timer_inv_empty|intros _]; exact Ht.
    + split; [apply timer_inv_empty|intros _]; exact Ht.
  - cbn [fst snd]. split; [exact H | contradiction].
Qed.

Lemma clearBranch_timers (m : Message) (w : World) :
  timer_inv w ->
  timer_inv (clearBranch m w) /\ (mtype m = "clear" -> timers (clearBranch m w) = []).
Proof.
  intros H. unfold clearBranch. destruct (String.eqb_spec (mtype m) "clear") as [E|E].
  - assert (H1 : timer_inv (upd_session (fun s => set_isProcessing false (resetUtterance s)) w))
      by now apply (timer_inv_frame w _ H).
    destruct (cancelTimer_timers _ H1) as [Hc _].
    split; [apply timer_inv_empty|intros _]; exact Hc.
  - split; [exact H | contradiction].
Qed.

Lemma onMessage_timer_inv (m : Message) (w : World) :
  timer_inv w -> timer_inv (fst (onMessage m w)).
Proof.
  intros H. unfold onMessage. destruct (audioBranch m w) as [w1|] eqn:Ea; [|exact H].
  pose proof (audioBranch_timer_inv m w w1 H Ea) as H1.
  pose proof (stopBranch_timers m _ (configBranch_timer_inv m w1 H1)) as [H2 _].
  destruct (stopBranch m (configBranch m w1)) as [[[|] w2] out]; cbn [fst snd] in *.
  - now apply clearBranch_timers.
  - exact H2.
Qed.

Lemma onClose_timers (w : World) :
  timer_inv w -> timers (onClose w) = [].
Proof.
  intros H. unfold onClose. destruct (processingTimer (sessionData w)) eqn:E.
  - cbn. exact (timer_inv_some w n H E).
  - exact (timer_inv_none w H E).
Qed.

Lemma dropTask_timer_inv (i : nat) (w : World) : timer_inv w -> timer_inv (dropTask i w).
Proof. intros H. now apply (timer_inv_frame w _ H). Qed.

Lemma step_timer_inv (w : World) (e : Event) :
  timer_inv w -> timer_inv (fst (step w e)).
Proof.
  intros H. destruct e as [m| |h|i r|i r|]; cbn [step].
  - now apply onMessage_timer_inv.
  - exact H.
  - destruct (existsb _ _) eqn:E; [|exact H].
    apply timerCallback_timer_inv. now apply fired_timer_is_the_only_one.
  - destruct (findTask i w) as [t|]; [|exact H].
    destruct (awaiting t); [|exact H].
    apply onTranscribed_timer_inv. now apply dropTask_timer_inv.
  - destruct (findTask i w) as [t|]; [|exact H].
    destruct (awaiting t); [exact H|].
    apply onTranslated_timer_inv. now apply dropTask_timer_inv.
  - apply timer_inv_empty. now apply onClose_timers.
Qed.

Lemma run_timer_inv (es : list Event) (w : World) :
  timer_inv w -> timer_inv (fst (run es w)).
Proof.
  revert w. induction es as [|e es IH]; intros w H; cbn [run]; [exact H|].
  pose proof (step_timer_inv w e H) as H1.
  destruct (step w e) as [w1 o1]. cbn [fst] in H1.
  specialize (IH w1 H1). destruct (run es w1) as [w2 o2]. exact IH.
Qed.

Lemma timer_inv_length (w : World) : timer_inv w -> List.length (timers w) <= 1.
Proof. intros [H | (h & H & _)]; rewrite H; cbn; lia. Qed.

(** C9. In every world the event loop can reach from a new connection at
    most one timeout is scheduled; [scheduleProcessing] leaves a scheduled
    timeout alone and never makes a second one; and after a stop message,
    a clear message or the close of the socket no timeout is scheduled. *)
Theorem at_most_one_pending_timer (es : list Event) :
  List.length (timers (after es)) <= 1
  /\ List.length (timers (scheduleProcessing (after es))) <= 1
  /\ (timers (after es) <> [] ->
      timers (scheduleProcessing (after es)) = timers (after es))
  /\ (forall a sl tl,
        timers (fst (step (after es) (EMessage (mkMessage "stop" a sl tl)))) = [])
  /\ (forall a sl tl,
        timers (fst (step (after es) (EMessage (mkMessage "clear" a sl tl)))) = [])
  /\ timers (fst (step (after es) EClose)) = [].
Proof.
  assert (H : timer_inv (after es)) by (apply run_timer_inv; now left).
  split; [now apply timer_inv_length|].
  split; [now apply timer_inv_length, scheduleProcessing_timer_inv|].
  split.
  { intros Hne. unfold scheduleProcessing.
    destruct (processingTimer (sessionData (after es))) eqn:E; [reflexivity|].
    now rewrite (timer_inv_none _ H E) in Hne. }
  split.
  { intros a sl tl. cbn [step]. unfold onMessage, audioBranch, configBranch.
    cbn [mtype String.eqb Ascii.eqb Bool.eqb].
    pose proof (stopBranch_timers (mkMessage "stop" a sl tl) (after es) H) as [_ Hs].
    specialize (Hs eq_refl).
    destruct (stopBranch _ _) as [[[|] w2] out]; cbn [fst snd] in *; [|exact Hs].
    unfold clearBranch. cbn [mtype String.eqb Ascii.eqb Bool.eqb]. exact Hs. }
  split.
  { intros a sl tl. cbn [step]. unfold onMessage, audioBranch, configBranch, stopBranch.
    cbn [mtype String.eqb Ascii.eqb Bool.eqb fst].
    now apply clearBranch_timers. }
  cbn [step fst]. now apply onClose_timers.
Qed.

(** ** Single flight, as far as it holds *)

Lemma single_flight_frame (w w' : World) :
  single_flight w -> tasks w' = tasks w ->
  isProcessing (sessionData w') = isProcessing (sessionData w) ->
  single_flight w'.
Proof. unfold single_flight. intros H -> ->. exact H. Qed.

Lemma single_flight_idle (w : World) : tasks w = [] -> single_flight w.
Proof. now left. Qed.

Lemma single_flight_flag_down (w : World) :
  single_flight w -> isProcessing (sessionData w) = false -> tasks w = [].
Proof. intros [H | (t & _ & H)] E; [exact H | congruence]. Qed.

Lemma processAudioStream_single_flight (final : bool) (k : Caller) (w : World) :
  single_flight w -> single_flight (snd (fst (processAudioStream final k w))).
Proof.
  intros H. unfold processAudioStream.
  destruct (isProcessing (sessionData w)) eqn:P; cbn [orb]; [exact H|].
  pose proof (single_flight_flag_down w H P) as T.
  destruct (_ =? _)%nat; [exact H|].
  destruct (_ && _); cbn [fst snd].
  - now apply single_flight_idle.
  - right. eexists. cbn. rewrite T. now split.
Qed.

Lemma scheduleProcessing_frame (w : World) :
  tasks (scheduleProcessing w) = tasks w
  /\ nextTask (scheduleProcessing w) = nextTask w
  /\ set_processingTimer None (sessionData (scheduleProcessing w))
     = set_processingTimer None (sessionData w).
Proof. unfold scheduleProcessing. split_tests; now repeat split. Qed.

Lemma scheduleProcessing_flag (w : World) :
  isProcessing (sessionData (scheduleProcessing w)) = isProcessing (sessionData w).
Proof. unfold scheduleProcessing. split_tests; reflexivity. Qed.

Lemma afterAwait_single_flight (k : Caller) (w : World) :
  single_flight w -> single_flight (afterAwait k w).
Proof.
  intros H. destruct k; cbn [afterAwait].
  - destruct (_ <? _)%nat; [|exact H].
    apply (single_flight_frame w _ H);
      [apply scheduleProcessing_frame | apply scheduleProcessing_flag].
  - now apply (single_flight_frame w _ H).
Qed.

Lemma afterAwait_tasks (k : Caller) (w : World) :
  tasks (afterAwait k w) = tasks w /\ nextTask (afterAwait k w) = nextTask w.
Proof.
  destruct k; cbn [afterAwait]; [|now split].
  destruct (_ <? _)%nat; [|now split].
  split; apply scheduleProcessing_frame.
Qed.

Lemma only_task_found (i : nat) (t : Task) (w : World) :
  single_flight w -> findTask i w = Some t ->
  tasks (dropTask i w) = [] /\ isProcessing (sessionData w) = true.
Proof.
  unfold findTask, dropTask. intros [H | (t' & H & P)] F; rewrite H in *; cbn in *.
  - discriminate.
  - destruct (tid t' =? i)%nat; [now split | discriminate].
Qed.

Lemma timerCallback_single_flight (w : World) :
  single_flight w -> single_flight (fst (timerCallback w)).
Proof.
  intros H. unfold timerCallback.
  set (w1 := upd_session (set_processingTimer None) w).
  assert (H1 : single_flight w1) by now apply (single_flight_frame w _ H).
  destruct (_ && _); [|exact H1].
  pose proof (processAudioStream_single_flight false FromTimer w1 H1) as H2.
  destruct (processAudioStream false FromTimer w1) as [[[|] w2] out]; cbn [fst snd] in *.
  - now apply afterAwait_single_flight.
  - exact H2.
Qed.

Lemma cancelTimer_single_flight (w : World) :
  single_flight w -> single_flight (cancelTimer w).
Proof.
  intros H. apply (single_flight_frame w _ H).
  - apply cancelTimer_session.
  - now rewrite (proj1 (cancelTimer_session w)).
Qed.

Lemma onMessage_single_flight (m : Message) (w : World) :
  single_flight w -> (mtype m =? "clear") = false -> single_flight (fst (onMessage m w)).
Proof.
  intros H Hc. unfold onMessage, clearBranch. rewrite Hc.
  destruct (audioBranch m w) as [w1|] eqn:Ea; [|exact H].
  assert (H1 : single_flight (configBranch m w1)).
  { unfold audioBranch in Ea. unfold configBranch.
    destruct (mtype m =? "audio").
    - destruct (audio m); [|discriminate]. injection Ea as <-.
      destruct (mtype m =? "config"), (negb _);
        repeat first [ exact H
                     | apply (single_flight_frame w _ H); reflexivity
                     | eapply single_flight_frame;
                       [ | apply scheduleProcessing_frame | apply scheduleProcessing_flag ]
                     | eapply single_flight_frame; [ | reflexivity | reflexivity ] ].
    - injection Ea as <-. destruct (mtype m =? "config"); [|exact H].
      now apply (single_flight_frame w _ H). }
  unfold stopBranch. destruct (mtype m =? "stop"); [|exact H1].
  pose proof (processAudioStream_single_flight true FromStop _
                (cancelTimer_single_flight _ H1)) as H2.
  destruct (processAudioStream true FromStop _) as [[[|] w2] out]; cbn [fst snd] in *.
  - now apply afterAwait_single_flight.
  - exact H2.
Qed.

Lemma complete_idle (t : Task) (w : World) : tasks w = [] -> tasks (complete t w) = [].
Proof. intros H. unfold complete. now rewrite (proj1 (afterAwait_tasks _ _)). Qed.

Lemma fail_idle (t : Task) (w : World) : tasks w = [] -> tasks (fst (fail t w)) = [].
Proof. intros H. unfold fail. cbn [fst]. now rewrite (proj1 (afterAwait_tasks _ _)). Qed.

Lemma step_single_flight (w : World) (e : Event) :
  single_flight w -> is_clear e = false -> single_flight (fst (step w e)).
Proof.
  intros H Hc. destruct e as [m| |h|i r|i r|]; cbn [step].
  - now apply onMessage_single_flight.
  - exact H.
  - destruct (existsb _ _); [|exact H].
    apply timerCallback_single_flight. now apply (single_flight_frame w _ H).
  - destruct (findTask i w) as [t|] eqn:F; [|exact H].
    destruct (awaiting t); [|exact H].
    destruct (only_task_found i t w H F) as [T P].
    destruct r as [x|]; cbn [onTranscribed].
    + destruct (_ && _); cbn [fst].
      * right. eexists. split.
        -- cbn [suspend tasks upd_session]. rewrite T. reflexivity.
        -- exact P.
      * now apply single_flight_idle, complete_idle.
    + now apply single_flight_idle, fail_idle.
  - destruct (findTask i w) as [t|] eqn:F; [|exact H].
    destruct (awaiting t); [exact H|].
    destruct (only_task_found i t w H F) as [T P].
    destruct r as [x|]; cbn [onTranslated fst].
    + now apply single_flight_idle, complete_idle.
    + now apply single_flight_idle, fail_idle.
  - cbn [fst]. apply (single_flight_frame w _ H); unfold onClose; now split_tests.
Qed.

(** As long as no clear message arrives, at most one invocation is active
    and the flag is up while it is: audio and stop messages, timers and
    answers of the service never start a second one. *)
Lemma single_flight_without_clear (es : list Event) (w : World) :
  single_flight w -> no_clear es = true -> single_flight (fst (run es w)).
Proof.
  revert w. induction es as [|e es IH]; intros w H Hn; cbn [run]; [exact H|].
  cbn in Hn. apply Bool.andb_true_iff in Hn as [He Hn].
  apply Bool.negb_true_iff in He.
  pose proof (step_single_flight w e H He) as H1.
  destruct (step w e) as [w1 o1]. cbn [fst] in H1.
  specialize (IH w1 H1 Hn). destruct (run es w1) as [w2 o2]. exact IH.
Qed.

Lemma one_invocation_without_clear (es : list Event) :
  no_clear es = true -> List.length (tasks (after es)) <= 1.
Proof.
  intros Hn.
  destruct (single_flight_without_clear es connection (single_flight_idle connection eq_refl) Hn)
    as [H | (t & H & _)]; unfold after; rewrite H; cbn; lia.
Qed.

(** ** The end of a stop handler *)

Lemma processAudioStream_final_returned (k : Caller) (w : World) :
  fst (fst (processAudioStream true k w)) = Returned ->
  snd (fst (processAudioStream true k w)) = w.
Proof.
  unfold processAudioStream. destruct (_ || _); [reflexivity|].
  cbn [negb]. rewrite Bool.andb_false_r. discriminate.
Qed.

Lemma findTask_tid (i : nat) (t : Task) (w : World) :
  findTask i w = Some t -> tid t = i /\ In t (tasks w).
Proof.
  unfold findTask. intros F. apply find_some in F as [Hin E].
  apply Nat.eqb_eq in E. now split.
Qed.

Lemma findTask_suspend (t : Task) (w : World) :
  is_some (findTask (tid t) (suspend t w)) = true.
Proof.
  unfold findTask, suspend. cbn [tasks].
  induction (tasks w) as [|a l IH]; cbn.
  - now rewrite Nat.eqb_refl.
  - destruct (tid a =? tid t)%nat; [reflexivity | exact IH].
Qed.

(** What the code after the [await] of the stop branch leaves behind. *)
Lemma afterAwait_stop_session (w : World) :
  audioChunks (sessionData (afterAwait FromStop w)) = []
  /\ lastTranscript (sessionData (afterAwait FromStop w)) = ""
  /\ lastTranslation (sessionData (afterAwait FromStop w)) = ""
  /\ isProcessing (sessionData (afterAwait FromStop w)) = isProcessing (sessionData w).
Proof. now repeat split. Qed.

Lemma stop_handler_end (w : World) (e : Event) :
  completesStop w e = true ->
  audioChunks (sessionData (fst (step w e))) = []
  /\ lastTranscript (sessionData (fst (step w e))) = ""
  /\ lastTranslation (sessionData (fst (step w e))) = ""
  /\ isProcessing (sessionData (fst (step w e))) = stopWhileProcessing w e.
Proof.
  destruct e as [m| |h|i r|i r|]; cbn [completesStop stopWhileProcessing];
    try discriminate.
  - intros H. apply Bool.andb_true_iff in H as [Hm Hr].
    apply String.eqb_eq in Hm. rewrite (stop_message_step m w Hm).
    pose proof (processAudioStream_final_returned FromStop (cancelTimer w)) as Hw.
    destruct (processAudioStream true FromStop (cancelTimer w)) as [[[|] w1] out];
      cbn [fst snd is_returned] in *; [|discriminate].
    rewrite (Hw eq_refl). repeat split.
    cbn. now rewrite (proj1 (cancelTimer_session w)).
  - destruct (findTask i w) as [t|] eqn:F; [|discriminate].
    destruct (findTask_tid i t w F) as [Ei _].
    intros H. apply Bool.andb_true_iff in H as [Hk Hgone].
    destruct (caller t) eqn:Ek; [discriminate|].
    apply Bool.negb_true_iff in Hgone. revert Hgone.
    cbn [step]. rewrite F. destruct (awaiting t).
    + destruct r as [x|]; cbn [onTranscribed].
      * destruct (_ && _); cbn [fst].
        -- rewrite <- Ei at 1.
           change (tid t) with (tid (mkTask (tid t) (AwaitTranslation (orElse x ""))
                                       (isFinal t) (caller t))) at 1.
           rewrite findTask_suspend. discriminate.
        -- intros _. unfold complete. rewrite Ek. now repeat split.
      * intros _. unfold fail. rewrite Ek. now repeat split.
    + cbn [fst]. rewrite F. discriminate.
  - destruct (findTask i w) as [t|] eqn:F; [|discriminate].
    intros H. apply Bool.andb_true_iff in H as [Hk Hgone].
    destruct (caller t) eqn:Ek; [discriminate|].
    apply Bool.negb_true_iff in Hgone. revert Hgone.
    cbn [step]. rewrite F. destruct (awaiting t).
    + cbn [fst]. rewrite F. discriminate.
    + intros _. destruct r as [x|]; cbn [onTranslated fst].
      * unfold complete. rewrite Ek. now repeat split.
      * unfold fail. rewrite Ek. now repeat split.
Qed.

(** Delivered alone, a message is handled by [tick] as by [step]: the
    waiting stop handler, if any, resumes before anything else runs. *)
Lemma tick_alone (m : Message) (w : World) :
  world (fst (ticks [TEvent (EMessage m); TResume] (mkLoop w 0))) = fst (step w (EMessage m))
  /\ snd (ticks [TEvent (EMessage m); TResume] (mkLoop w 0)) = snd (step w (EMessage m))
  /\ resuming (fst (ticks [TEvent (EMessage m); TResume] (mkLoop w 0))) = 0.
Proof.
  cbn [ticks tick step world resuming]. unfold handlerToAwait, onMessage, stopBranch.
  destruct (audioBranch m w) as [w1|]; [|now repeat split].
  destruct (String.eqb_spec (mtype m) "stop") as [E | E].
  - destruct (processAudioStream true FromStop (cancelTimer (configBranch m w1)))
      as [[[|] w3] out]; cbn; rewrite ?app_nil_r; [|now repeat split].
    unfold clearBranch. rewrite E. now repeat split.
  - cbn. now repeat split.
Qed.

(** Frames that share a socket write.  A stop message on an empty
    buffer, an audio message and a second stop message: the first handler
    resumes after the second has started its invocation and ends with the
    flag up.  A stop message during an invocation followed by a clear
    message: the stop handler resumes after the clear and ends with the
    flag down. *)
Lemma frames_in_one_write :
  isProcessing (sessionData (world (fst (ticks
    [TEvent (EMessage (stopMsg None)); TEvent (EMessage (audioMsg (silence 4)));
     TEvent (EMessage (stopMsg None)); TResume] opened)))) = true
  /\ isProcessing (sessionData (world (fst (ticks
    [TEvent (EMessage (audioMsg (silence 4000))); TEvent (ETimer 0);
     TEvent (EMessage (stopMsg None)); TEvent (EMessage clearMsg); TResume]
    opened)))) = false.
Proof. split; vm_compute; reflexivity. Qed.




(** ** The buffer across invocations *)

Lemma afterAwait_timer_chunks (w : World) :
  audioChunks (sessionData (afterAwait FromTimer w)) = audioChunks (sessionData w).
Proof. cbn [afterAwait]. unfold scheduleProcessing. now split_tests. Qed.

Lemma timer_starts_invocation (w : World) (h : nat) :
  existsb (Nat.eqb h) (timers w) = true ->
  isProcessing (sessionData w) = false ->
  audioChunks (sessionData w) <> [] ->
  (4000 <= Z.of_nat (List.length (List.concat (audioChunks (sessionData w)))))%Z ->
  step w (ETimer h)
  = (mkWorld (set_isProcessing true (set_processingTimer None (sessionData w)))
             (remove Nat.eq_dec h (timers w)) (nextTimer w)
             (tasks w ++ [mkTask (nextTask w)
                            (AwaitTranscription (List.concat (audioChunks (sessionData w))))
                            false FromTimer])
             (S (nextTask w)),
     [CallTranscribe (nextTask w) (List.concat (audioChunks (sessionData w)))
                     (sourceLanguage (sessionData w))]).
Proof.
  intros Hin Hp Hc Hsize. cbn [step]. rewrite Hin.
  unfold timerCallback, processAudioStream.
  cbn [upd_session clearTimeout sessionData set_processingTimer set_isProcessing
       audioChunks isProcessing timers tasks nextTask nextTimer sourceLanguage].
  rewrite Hp. destruct (audioChunks (sessionData w)) as [|c cs] eqn:Ec; [congruence|].
  cbn [List.length Nat.ltb Nat.leb Nat.eqb andb orb negb minAudioSize].
  apply Z.ltb_ge in Hsize. rewrite Hsize. reflexivity.
Qed.

(** C4, amended.  A non-final invocation that passes the size floor hands
    the concatenation of the buffered chunks to the transcription service
    and leaves the buffer as it is, at its start and when it resumes
    after each answer; the buffer is emptied by a clear message and at the
    end of a stop handler. *)
Theorem buffer_kept_by_non_final_invocation (w : World) :
  (forall h,
      existsb (Nat.eqb h) (timers w) = true ->
      isProcessing (sessionData w) = false ->
      audioChunks (sessionData w) <> [] ->
      (4000 <= Z.of_nat (List.length (List.concat (audioChunks (sessionData w)))))%Z ->
      snd (step w (ETimer h))
      = [CallTranscribe (nextTask w) (List.concat (audioChunks (sessionData w)))
                        (sourceLanguage (sessionData w))]
      /\ audioChunks (sessionData (fst (step w (ETimer h)))) = audioChunks (sessionData w))
  /\ (forall i t,
        findTask i w = Some t -> isFinal t = false -> caller t = FromTimer ->
        (forall r, audioChunks (sessionData (fst (step w (ETranscribed i r))))
                   = audioChunks (sessionData w))
        /\ (forall r, audioChunks (sessionData (fst (step w (ETranslated i r))))
                      = audioChunks (sessionData w)))
  /\ (forall a sl tl,
        audioChunks (sessionData (fst (step w (EMessage (mkMessage "clear" a sl tl))))) = [])
  /\ (forall e, completesStop w e = true -> audioChunks (sessionData (fst (step w e))) = []).
Proof.
  split; [|split; [|split]].
  - intros h Hin Hp Hc Hsize. rewrite (timer_starts_invocation w h Hin Hp Hc Hsize).
    now split.
  - intros i t F Hf Hk. split; intros r; cbn [step]; rewrite F;
      destruct (awaiting t); try reflexivity.
    + destruct r as [x|]; cbn [onTranscribed].
      * destruct (_ && _); [reflexivity|]. cbn [fst]. unfold complete.
        rewrite Hk, Hf, afterAwait_timer_chunks. reflexivity.
      * unfold fail. cbn [fst]. rewrite Hk, afterAwait_timer_chunks. reflexivity.
    + destruct r as [x|]; cbn [onTranslated fst].
      * unfold complete. rewrite Hk, Hf, afterAwait_timer_chunks. reflexivity.
      * unfold fail. cbn [fst]. rewrite Hk, afterAwait_timer_chunks. reflexivity.
  - intros a sl tl. cbn [step]. unfold onMessage, audioBranch, configBranch, stopBranch,
      clearBranch. cbn [mtype String.eqb Ascii.eqb Bool.eqb fst].
    rewrite (proj1 (cancelTimer_session _)). reflexivity.
  - intros e H. apply (stop_handler_end w e H).
Qed.

Lemma buffer_kept_by_non_final_invocation_witness :
  snd (step (after [EMessage (audioMsg (silence 4000))]) (ETimer 0))
  = [CallTranscribe 0 (silence 4000) "zh"]
  /\ audioChunks (sessionData (fst (step (after [EMessage (audioMsg (silence 4000))])
                                         (ETimer 0))))
     = [silence 4000].
Proof.
  refine (proj1 (buffer_kept_by_non_final_invocation
                   (after [EMessage (audioMsg (silence 4000))])) 0 eq_refl eq_refl _ _).
  - discriminate.
  - vm_compute. discriminate.
Defined.

(** ** After a clear message *)

Lemma started_from_frame (n : nat) (w w' : World) :
  started_from n w -> tasks w' = tasks w -> nextTask w' = nextTask w ->
  started_from n w'.
Proof. unfold started_from. intros H -> ->. exact H. Qed.

Lemma processAudioStream_started (n : nat) (final : bool) (k : Caller) (w : World) :
  started_from n w ->
  started_from n (snd (fst (processAudioStream final k w)))
  /\ Forall (fun o => n <= invocationOf o) (snd (processAudioStream final k w)).
Proof.
  intros [Hn Ht]. unfold processAudioStream.
  destruct (_ || _); [now repeat split|].
  destruct (_ && _); cbn [fst snd]; [now repeat split|].
  split; [split|]; cbn.
  - lia.
  - apply Forall_app. split; [exact Ht|]. repeat constructor. exact Hn.
  - repeat constructor. exact Hn.
Qed.

Lemma afterAwait_started (n : nat) (k : Caller) (w : World) :
  started_from n w -> started_from n (afterAwait k w).
Proof. intros H. apply (started_from_frame n w _ H); apply afterAwait_tasks. Qed.

Lemma dropTask_started (n i : nat) (w : World) :
  started_from n w -> started_from n (dropTask i w).
Proof.
  intros [Hn Ht]. split; [exact Hn|]. cbn [dropTask tasks].
  apply Forall_forall. intros t Hin. apply filter_In in Hin as [Hin _].
  revert t Hin. now apply Forall_forall.
Qed.

Lemma complete_started (n : nat) (t : Task) (w : World) :
  started_from n w -> started_from n (complete t w).
Proof. intros H. apply afterAwait_started. now apply (started_from_frame n w). Qed.

Lemma fail_started (n : nat) (t : Task) (w : World) :
  n <= tid t -> started_from n w ->
  started_from n (fst (fail t w)) /\ Forall (fun o => n <= invocationOf o) (snd (fail t w)).
Proof.
  intros Hi H. split.
  - apply afterAwait_started. now apply (started_from_frame n w).
  - now repeat constructor.
Qed.

Lemma onTranscribed_started (n : nat) (t : Task) (r : TranscribeResult) (w : World) :
  n <= tid t -> started_from n w ->
  started_from n (fst (onTranscribed t r w))
  /\ Forall (fun o => n <= invocationOf o) (snd (onTranscribed t r w)).
Proof.
  intros Hi H. destruct r as [x|]; cbn [onTranscribed]; [|now apply fail_started].
  destruct (_ && _); cbn [fst snd].
  - split; [|now repeat constructor].
    destruct H as [Hn Ht]. split; [exact Hn|]. cbn.
    apply Forall_app. split; [exact Ht | now repeat constructor].
  - split; [now apply complete_started | constructor].
Qed.

Lemma onTranslated_started (n : nat) (t : Task) (x : string) (r : ChatResult) (w : World) :
  n <= tid t -> started_from n w ->
  started_from n (fst (onTranslated t x r w))
  /\ Forall (fun o => n <= invocationOf o) (snd (onTranslated t x r w)).
Proof.
  intros Hi H. destruct r as [c|]; cbn [onTranslated]; [|now apply fail_started].
  cbn [fst snd]. split; [|now repeat constructor].
  apply complete_started. now apply (started_from_frame n w).
Qed.

Lemma timerCallback_started (n : nat) (w : World) :
  started_from n w ->
  started_from n (fst (timerCallback w))
  /\ Forall (fun o => n <= invocationOf o) (snd (timerCallback w)).
Proof.
  intros H. unfold timerCallback.
  set (w1 := upd_session (set_processingTimer None) w).
  assert (H1 : started_from n w1) by now apply (started_from_frame n w).
  destruct (_ && _); [|split; [exact H1 | constructor]].
  pose proof (processAudioStream_started n false FromTimer w1 H1) as [H2 Ho].
  destruct (processAudioStream false FromTimer w1) as [[[|] w2] out]; cbn [fst snd] in *.
  - split; [now apply afterAwait_started | exact Ho].
  - now split.
Qed.

Lemma audioBranch_tasks (m : Message) (w w1 : World) :
  audioBranch m w = Some w1 -> tasks w1 = tasks w /\ nextTask w1 = nextTask w.
Proof.
  unfold audioBranch. destruct (mtype m =? "audio"); [|now intros [= <-]].
  destruct (audio m); [|discriminate]. intros [= <-].
  destruct (negb _); [|now split].
  split; [rewrite (proj1 (scheduleProcessing_frame _))
         | rewrite (proj1 (proj2 (scheduleProcessing_frame _)))]; reflexivity.
Qed.

Lemma configBranch_tasks (m : Message) (w : World) :
  tasks (configBranch m w) = tasks w /\ nextTask (configBranch m w) = nextTask w.
Proof. unfold configBranch. now destruct (_ =? _). Qed.

Lemma clearBranch_tasks (m : Message) (w : World) :
  tasks (clearBranch m w) = tasks w /\ nextTask (clearBranch m w) = nextTask w.
Proof.
  unfold clearBranch. destruct (_ =? _); [|now split].
  split; [rewrite (proj1 (proj2 (cancelTimer_session _)))
         | rewrite (proj2 (proj2 (cancelTimer_session _)))]; reflexivity.
Qed.

Lemma onMessage_started (n : nat) (m : Message) (w : World) :
  started_from n w ->
  started_from n (fst (onMessage m w))
  /\ Forall (fun o => n <= invocationOf o) (snd (onMessage m w)).
Proof.
  intros H. unfold onMessage.
  destruct (audioBranch m w) as [w1|] eqn:Ea; [|split; [exact H | constructor]].
  assert (H1 : started_from n (configBranch m w1)).
  { apply (started_from_frame n w _ H).
    - rewrite (proj1 (configBranch_tasks m w1)). now apply (audioBranch_tasks m w w1).
    - rewrite (proj2 (configBranch_tasks m w1)). now apply (audioBranch_tasks m w w1). }
  unfold stopBranch. destruct (mtype m =? "stop"); cbn [fst snd].
  - assert (H2 : started_from n (cancelTimer (configBranch m w1)))
      by (apply (started_from_frame n _ _ H1); apply cancelTimer_session).
    pose proof (processAudioStream_started n true FromStop _ H2) as [H3 Ho].
    destruct (processAudioStream true FromStop _) as [[[|] w2] out]; cbn [fst snd] in *.
    + split; [|exact Ho].
      apply (started_from_frame n _ _ (afterAwait_started n FromStop w2 H3));
        apply clearBranch_tasks.
    + now split.
  - split; [|constructor].
    apply (started_from_frame n _ _ H1); apply clearBranch_tasks.
Qed.

Lemma step_started (n : nat) (w : World) (e : Event) :
  started_from n w ->
  started_from n (fst (step w e))
  /\ Forall (fun o => n <= invocationOf o) (snd (step w e)).
Proof.
  intros H. destruct e as [m| |h|i r|i r|]; cbn [step].
  - now apply onMessage_started.
  - split; [exact H | constructor].
  - destruct (existsb _ _); [|split; [exact H | constructor]].
    apply timerCallback_started. now apply (started_from_frame n w).
  - destruct (findTask i w) as [t|] eqn:F; [|split; [exact H | constructor]].
    destruct (awaiting t); [|split; [exact H | constructor]].
    apply onTranscribed_started; [|now apply dropTask_started].
    destruct (findTask_tid i t w F) as [_ Hin]. destruct H as [_ Ht].
    now apply (proj1 (Forall_forall _ _) Ht).
  - destruct (findTask i w) as [t|] eqn:F; [|split; [exact H | constructor]].
    destruct (awaiting t); [split; [exact H | constructor]|].
    apply onTranslated_started; [|now apply dropTask_started].
    destruct (findTask_tid i t w F) as [_ Hin]. destruct H as [_ Ht].
    now apply (proj1 (Forall_forall _ _) Ht).
  - split; [|constructor]. apply (started_from_frame n w _ H); unfold onClose; now split_tests.
Qed.

Lemma run_started (n : nat) (es : list Event) (w : World) :
  started_from n w -> Forall (fun o => n <= invocationOf o) (snd (run es w)).
Proof.
  revert w. induction es as [|e es IH]; intros w H; cbn [run]; [constructor|].
  pose proof (step_started n w e H) as [H1 Ho].
  destruct (step w e) as [w1 o1]. cbn [fst snd] in *.
  specialize (IH w1 H1). destruct (run es w1) as [w2 o2]. cbn [snd] in *.
  apply Forall_app. now split.
Qed.

Lemma processAudioStream_chunks (final : bool) (k : Caller) (w : World) :
  audioChunks (sessionData (snd (fst (processAudioStream final k w))))
  = audioChunks (sessionData w).
Proof. unfold processAudioStream. now split_tests. Qed.

Lemma processAudioStream_calls (final : bool) (k : Caller) (w : World) :
  Forall (transcribes (audioChunks (sessionData w))) (snd (processAudioStream final k w)).
Proof. unfold processAudioStream. split_tests; cbn [snd]; now repeat constructor. Qed.

Lemma afterAwait_chunks (k : Caller) (w : World) :
  audioChunks (sessionData (afterAwait k w)) = audioChunks (sessionData w)
  \/ audioChunks (sessionData (afterAwait k w)) = [].
Proof. destruct k; [left; apply afterAwait_timer_chunks | now right]. Qed.

Lemma complete_chunks (t : Task) (w : World) :
  audioChunks (sessionData (complete t w)) = audioChunks (sessionData w)
  \/ audioChunks (sessionData (complete t w)) = [].
Proof.
  unfold complete. destruct (afterAwait_chunks (caller t)
    (upd_session (set_isProcessing false) (upd_session (clearIfFinal (isFinal t)) w)))
    as [H | H]; [|now right].
  rewrite H. cbn. destruct (isFinal t); [now right | now left].
Qed.

Lemma fail_chunks (t : Task) (w : World) :
  audioChunks (sessionData (fst (fail t w))) = audioChunks (sessionData w)
  \/ audioChunks (sessionData (fst (fail t w))) = [].
Proof. apply (afterAwait_chunks (caller t) (upd_session (set_isProcessing false) w)). Qed.

Lemma audioBranch_chunks (m : Message) (w : World) :
  match audioBranch m w with
  | Some w1 => audioChunks (sessionData w1)
               = audioChunks (sessionData w) ++ receivedBy (EMessage m)
  | None => receivedBy (EMessage m) = []
  end.
Proof.
  unfold audioBranch, receivedBy. destruct (mtype m =? "audio").
  - destruct (audio m); [|reflexivity].
    unfold scheduleProcessing. now split_tests.
  - now rewrite app_nil_r.
Qed.

Lemma message_chunks (m : Message) (w : World) :
  grown_or_emptied (audioChunks (sessionData w)) (EMessage m) (fst (onMessage m w)).
Proof.
  unfold grown_or_emptied, onMessage. pose proof (audioBranch_chunks m w) as Ha.
  destruct (audioBranch m w) as [w1|].
  - rewrite <- Ha.
    assert (Hc : audioChunks (sessionData (configBranch m w1)) = audioChunks (sessionData w1))
      by (unfold configBranch; now destruct (_ =? _)).
    rewrite <- Hc. generalize (configBranch m w1) as w2. intros w2.
    assert (Hk : forall w3, audioChunks (sessionData (clearBranch m w3))
                            = audioChunks (sessionData w3)
                            \/ audioChunks (sessionData (clearBranch m w3)) = []).
    { intros w3. unfold clearBranch. destruct (_ =? _); [right|now left].
      now rewrite (proj1 (cancelTimer_session _)). }
    unfold stopBranch. destruct (mtype m =? "stop"); cbn [fst]; [|apply Hk].
    pose proof (processAudioStream_chunks true FromStop (cancelTimer w2)) as Hp.
    rewrite (proj1 (cancelTimer_session w2)) in Hp. cbn [audioChunks set_processingTimer] in Hp.
    destruct (processAudioStream true FromStop (cancelTimer w2)) as [[[|] w3] out];
      cbn [fst snd] in *.
    + right. destruct (Hk (afterAwait FromStop w3)) as [H | H]; [now rewrite H | exact H].
    + now left.
  - cbn [fst]. rewrite Ha, app_nil_r. now left.
Qed.

Lemma step_chunks (w : World) (e : Event) :
  grown_or_emptied (audioChunks (sessionData w)) e (fst (step w e)).
Proof.
  destruct e as [m| |h|i r|i r|]; cbn [step]; [apply message_chunks| | | | |];
    unfold grown_or_emptied; cbn [receivedBy]; rewrite app_nil_r.
  - now left.
  - destruct (existsb _ _); [|now left]. unfold timerCallback.
    destruct (_ && _); [|now left].
    pose proof (processAudioStream_chunks false FromTimer
                  (upd_session (set_processingTimer None) (clearTimeout h w))) as Hp.
    destruct (processAudioStream false FromTimer _) as [[[|] w2] out]; cbn [fst snd] in *.
    + left. now rewrite afterAwait_timer_chunks.
    + now left.
  - destruct (findTask i w) as [t|]; [|now left]. destruct (awaiting t); [|now left].
    destruct r as [x|]; cbn [onTranscribed].
    + destruct (_ && _); [now left|]. apply (complete_chunks t (dropTask i w)).
    + apply (fail_chunks t (dropTask i w)).
  - destruct (findTask i w) as [t|]; [|now left]. destruct (awaiting t); [now left|].
    destruct r as [x|]; cbn [onTranslated fst].
    + apply (complete_chunks t (upd_session (set_lastTranslation (orElse x "")) (dropTask i w))).
    + apply (fail_chunks t (dropTask i w)).
  - left. unfold onClose. now split_tests.
Qed.

Lemma message_calls (m : Message) (w : World) :
  Forall (transcribes (audioChunks (sessionData w))) (snd (onMessage m w)).
Proof.
  destruct (String.eqb_spec (mtype m) "stop") as [E | E].
  - pose proof (stop_message_step m w E) as Hs. cbn [step] in Hs. rewrite Hs.
    pose proof (processAudioStream_calls true FromStop (cancelTimer w)) as Hp.
    rewrite (proj1 (cancelTimer_session w)) in Hp. cbn [audioChunks set_processingTimer] in Hp.
    now destruct (processAudioStream true FromStop (cancelTimer w)) as [[[|] w1] out].
  - apply String.eqb_neq in E. unfold onMessage, stopBranch. rewrite E.
    destruct (audioBranch m w); constructor.
Qed.

Lemma step_calls (w : World) (e : Event) :
  Forall (transcribes (audioChunks (sessionData w))) (snd (step w e)).
Proof.
  destruct e as [m| |h|i r|i r|]; cbn [step]; [apply message_calls| | | | |];
    try constructor.
  - destruct (existsb _ _); [|constructor]. unfold timerCallback.
    destruct (_ && _); [|constructor].
    pose proof (processAudioStream_calls false FromTimer
                  (upd_session (set_processingTimer None) (clearTimeout h w))) as Hp.
    now destruct (processAudioStream false FromTimer _) as [[[|] w2] out].
  - destruct (findTask i w) as [t|]; [|constructor]. destruct (awaiting t); [|constructor].
    destruct r as [x|]; cbn [onTranscribed]; [|now repeat constructor].
    destruct (_ && _); now repeat constructor.
  - destruct (findTask i w) as [t|]; [|constructor]. destruct (awaiting t); [constructor|].
    destruct r as [x|]; now repeat constructor.
Qed.

Lemma transcribes_segment (cs rest : list Buffer) (o : Output) :
  transcribes cs o -> transcribed_from (cs ++ rest) o.
Proof.
  destruct o; cbn; try trivial. intros ->. now exists [], cs, rest.
Qed.

Lemma transcribed_from_later (pre l : list Buffer) (o : Output) :
  transcribed_from l o -> transcribed_from (pre ++ l) o.
Proof.
  destruct o; cbn; try trivial. intros (p & seg & post & -> & ->).
  exists (pre ++ p), seg, post. now rewrite app_assoc.
Qed.

Lemma run_transcribed_from (es : list Event) (w : World) :
  Forall (transcribed_from (audioChunks (sessionData w) ++ received es)) (snd (run es w)).
Proof.
  revert w. induction es as [|e es IH]; intros w; cbn [run]; [constructor|].
  pose proof (step_calls w e) as Hc. pose proof (step_chunks w e) as Hg.
  destruct (step w e) as [w1 o1]. cbn [fst snd] in *.
  specialize (IH w1). destruct (run es w1) as [w2 o2]. cbn [snd] in *.
  unfold received in *. cbn [flat_map]. apply Forall_app. split.
  - eapply Forall_impl; [|exact Hc]. intros o. apply transcribes_segment.
  - eapply Forall_impl; [|exact IH]. intros o Ho. destruct Hg as [Hg | Hg]; rewrite Hg in Ho.
    + now rewrite app_assoc.
    + cbn [app] in Ho. rewrite app_assoc. now apply transcribed_from_later.
Qed.

(** C8, amended.  When a clear message is handled while no invocation is
    in flight, everything the server does afterwards (messages sent and
    calls made) belongs to an invocation that starts after the clear, and
    every such invocation transcribes only audio received after the clear:
    nothing is emitted for the audio buffered before.  (An invocation in
    flight when the clear arrives is not covered: it is not cancelled.) *)
Theorem clear_when_idle_drops_earlier_audio (w : World) (m : Message) (es : list Event) :
  mtype m = "clear" -> tasks w = [] ->
  snd (step w (EMessage m)) = []
  /\ Forall (fun o => nextTask w <= invocationOf o)
            (snd (run es (fst (step w (EMessage m)))))
  /\ Forall (transcribed_from (received es))
            (snd (run es (fst (step w (EMessage m))))).
Proof.
  intros Hm Ht.
  assert (Hs : step w (EMessage m)
               = (cancelTimer (upd_session (fun s => set_isProcessing false (resetUtterance s)) w),
                  [])).
  { cbn [step]. unfold onMessage, audioBranch, configBranch, stopBranch, clearBranch.
    rewrite Hm. reflexivity. }
  rewrite Hs. cbn [fst snd]. split; [reflexivity|]. split.
  - apply run_started. split.
    + now rewrite (proj2 (proj2 (cancelTimer_session _))).
    + rewrite (proj1 (proj2 (cancelTimer_session _))). cbn. rewrite Ht. constructor.
  - pose proof (run_transcribed_from es
      (cancelTimer (upd_session (fun s => set_isProcessing false (resetUtterance s)) w))) as H.
    rewrite (proj1 (cancelTimer_session _)) in H. exact H.
Qed.

(** 4000 bytes are buffered and the timer is armed when the clear message
    arrives; 4000 other bytes follow, and only those are transcribed. *)
Lemma clear_when_idle_drops_earlier_audio_witness :
  Forall (transcribed_from [repeat Byte.xff 4000])
    (snd (run [EMessage (audioMsg (repeat Byte.xff 4000)); ETimer 1;
               ETranscribed 0 (TranscribeOk (Some "hello"));
               ETranslated 0 (ChatOk (Some "bonjour"))]
              (fst (step (after [EMessage (audioMsg (silence 4000))]) (EMessage clearMsg))))).
Proof.
  exact (proj2 (proj2 (clear_when_idle_drops_earlier_audio
           (after [EMessage (audioMsg (silence 4000))]) clearMsg
           [EMessage (audioMsg (repeat Byte.xff 4000)); ETimer 1;
            ETranscribed 0 (TranscribeOk (Some "hello"));
            ETranslated 0 (ChatOk (Some "bonjour"))]
           eq_refl eq_refl))).
Defined.

(** ** Failures of the external calls *)

(** A transcription call that throws, in an invocation awaited by the
    timer callback: one error message is sent, nothing else is done, the
    flag comes down and the last-emitted fields are untouched. *)
Lemma transcription_failure_keeps_last_fields (w : World) (i : nat) (t : Task)
  (b : Buffer) :
  findTask i w = Some t -> awaiting t = AwaitTranscription b -> caller t = FromTimer ->
  snd (step w (ETranscribed i TranscribeThrows))
  = [WsSend i (ErrorMessage "Transcription failed")]
  /\ lastTranscript (sessionData (fst (step w (ETranscribed i TranscribeThrows))))
     = lastTranscript (sessionData w)
  /\ lastTranslation (sessionData (fst (step w (ETranscribed i TranscribeThrows))))
     = lastTranslation (sessionData w)
  /\ isProcessing (sessionData (fst (step w (ETranscribed i TranscribeThrows)))) = false.
Proof.
  intros F Ha Hk. destruct (findTask_tid i t w F) as [Ei _].
  cbn [step]. rewrite F, Ha. cbn [onTranscribed]. unfold fail. rewrite Hk, Ei.
  cbn [fst snd afterAwait]. split; [reflexivity|].
  unfold scheduleProcessing. split_tests; now repeat split.
Qed.

(** A translation call that throws leaves [lastTranslation] as it was;
    [lastTranscript] is the new text, set before the call. *)
Lemma translation_failure_fields (w : World) (i : nat) (t : Task) (newText : string) :
  findTask i w = Some t -> awaiting t = AwaitTranslation newText -> caller t = FromTimer ->
  snd (step w (ETranslated i ChatThrows))
  = [WsSend i (ErrorMessage "Transcription failed")]
  /\ lastTranscript (sessionData (fst (step w (ETranslated i ChatThrows))))
     = lastTranscript (sessionData w)
  /\ lastTranslation (sessionData (fst (step w (ETranslated i ChatThrows))))
     = lastTranslation (sessionData w).
Proof.
  intros F Ha Hk. destruct (findTask_tid i t w F) as [Ei _].
  cbn [step]. rewrite F, Ha. cbn [onTranslated]. unfold fail. rewrite Hk, Ei.
  cbn [fst snd afterAwait]. split; [reflexivity|].
  unfold scheduleProcessing. split_tests; now repeat split.
Qed.

(** * Further properties of the server *)

(** ** Single flight between clear messages *)

(** X1. In a run of the event loop that handles no clear message, at most
    one invocation is active at any time, and the flag is up while one
    is; this holds from any world with that property, new connection
    included. *)
Theorem single_flight_between_clears (es : list Event) (w : World) :
  single_flight w -> no_clear es = true ->
  List.length (tasks (fst (run es w))) <= 1
  /\ (tasks (fst (run es w)) <> [] -> isProcessing (sessionData (fst (run es w))) = true).
Proof.
  intros H Hn.
  destruct (single_flight_without_clear es w H Hn) as [E | (t & E & P)]; rewrite E.
  - split; [cbn; lia | congruence].
  - split; [cbn; lia | intros _; exact P].
Qed.

Lemma single_flight_between_clears_witness :
  List.length (tasks (fst (run [EMessage (audioMsg (silence 4000)); ETimer 0;
                                EMessage (audioMsg (silence 4000)); ETimer 1;
                                EMessage (stopMsg None)] connection))) <= 1.
Proof.
  exact (proj1 (single_flight_between_clears
                  [EMessage (audioMsg (silence 4000)); ETimer 0;
                   EMessage (audioMsg (silence 4000)); ETimer 1;
                   EMessage (stopMsg None)] connection
                  (or_introl eq_refl) eq_refl)).
Defined.

(** ** The flag is never stuck *)

Lemma flag_backed_frame (w w' : World) :
  flag_backed w -> tasks w' = tasks w ->
  isProcessing (sessionData w') = isProcessing (sessionData w) -> flag_backed w'.
Proof. unfold flag_backed. intros H -> ->. exact H. Qed.

Lemma flag_backed_down (w : World) :
  isProcessing (sessionData w) = false -> flag_backed w.
Proof. unfold flag_backed. congruence. Qed.

Lemma flag_backed_busy (w : World) : tasks w <> [] -> flag_backed w.
Proof. unfold flag_backed. auto. Qed.

Lemma afterAwait_flag (k : Caller) (w : World) :
  isProcessing (sessionData (afterAwait k w)) = isProcessing (sessionData w).
Proof.
  destruct k; cbn [afterAwait]; [|reflexivity].
  destruct (_ <? _)%nat; [apply scheduleProcessing_flag | reflexivity].
Qed.

Lemma complete_flag (t : Task) (w : World) :
  isProcessing (sessionData (complete t w)) = false.
Proof. unfold complete. now rewrite afterAwait_flag. Qed.

Lemma fail_flag (t : Task) (w : World) :
  isProcessing (sessionData (fst (fail t w))) = false.
Proof. unfold fail. cbn [fst]. now rewrite afterAwait_flag. Qed.

Lemma processAudioStream_flag_backed (final : bool) (k : Caller) (w : World) :
  flag_backed w -> flag_backed (snd (fst (processAudioStream final k w))).
Proof.
  intros H. unfold processAudioStream.
  destruct (_ || _); [exact H|]. destruct (_ && _); cbn [fst snd].
  - now apply flag_backed_down.
  - apply flag_backed_busy. cbn. now destruct (tasks w).
Qed.

Lemma afterAwait_flag_backed (k : Caller) (w : World) :
  flag_backed w -> flag_backed (afterAwait k w).
Proof.
  intros H. apply (flag_backed_frame w _ H); [apply afterAwait_tasks | apply afterAwait_flag].
Qed.

Lemma timerCallback_flag_backed (w : World) :
  flag_backed w -> flag_backed (fst (timerCallback w)).
Proof.
  intros H. unfold timerCallback.
  set (w1 := upd_session (set_processingTimer None) w).
  assert (H1 : flag_backed w1) by now apply (flag_backed_frame w _ H).
  destruct (_ && _); [|exact H1].
  pose proof (processAudioStream_flag_backed false FromTimer w1 H1) as H2.
  destruct (processAudioStream false FromTimer w1) as [[[|] w2] out]; cbn [fst snd] in *.
  - now apply afterAwait_flag_backed.
  - exact H2.
Qed.

Lemma audioBranch_flag (m : Message) (w w1 : World) :
  audioBranch m w = Some w1 ->
  isProcessing (sessionData w1) = isProcessing (sessionData w).
Proof.
  unfold audioBranch. destruct (mtype m =? "audio"); [|now intros [= <-]].
  destruct (audio m); [|discriminate]. intros [= <-].
  destruct (negb _); [|reflexivity]. now rewrite scheduleProcessing_flag.
Qed.

Lemma configBranch_flag (m : Message) (w : World) :
  isProcessing (sessionData (configBranch m w)) = isProcessing (sessionData w).
Proof. unfold configBranch. now destruct (_ =? _). Qed.

Lemma onMessage_flag_backed (m : Message) (w : World) :
  flag_backed w -> flag_backed (fst (onMessage m w)).
Proof.
  intros H. unfold onMessage.
  destruct (audioBranch m w) as [w1|] eqn:Ea; [|exact H].
  assert (H1 : flag_backed (configBranch m w1)).
  { apply (flag_backed_frame w _ H).
    - rewrite (proj1 (configBranch_tasks m w1)). now apply (audioBranch_tasks m w w1).
    - rewrite configBranch_flag. now apply (audioBranch_flag m w w1). }
  assert (Hc : forall w3, flag_backed w3 -> flag_backed (clearBranch m w3)).
  { intros w3 H3. unfold clearBranch. destruct (_ =? _); [|exact H3].
    apply flag_backed_down. now rewrite (proj1 (cancelTimer_session _)). }
  unfold stopBranch. destruct (mtype m =? "stop"); cbn [fst snd]; [|now apply Hc].
  assert (H2 : flag_backed (cancelTimer (configBranch m w1))).
  { apply (flag_backed_frame _ _ H1); [apply cancelTimer_session|].
    now rewrite (proj1 (cancelTimer_session _)). }
  pose proof (processAudioStream_flag_backed true FromStop _ H2) as H3.
  destruct (processAudioStream true FromStop _) as [[[|] w2] out]; cbn [fst snd] in *.
  - now apply Hc, afterAwait_flag_backed.
  - exact H3.
Qed.

Lemma step_flag_backed (w : World) (e : Event) :
  flag_backed w -> flag_backed (fst (step w e)).
Proof.
  intros H. destruct e as [m| |h|i r|i r|]; cbn [step].
  - now apply onMessage_flag_backed.
  - exact H.
  - destruct (existsb _ _); [|exact H].
    apply timerCallback_flag_backed. now apply (flag_backed_frame w _ H).
  - destruct (findTask i w) as [t|]; [|exact H]. destruct (awaiting t); [|exact H].
    destruct r as [x|]; cbn [onTranscribed].
    + destruct (_ && _); cbn [fst].
      * apply flag_backed_busy. cbn. now destruct (filter _ _).
      * apply flag_backed_down, complete_flag.
    + apply flag_backed_down, fail_flag.
  - destruct (findTask i w) as [t|]; [|exact H]. destruct (awaiting t); [exact H|].
    destruct r as [x|]; cbn [onTranslated fst].
    + apply flag_backed_down, complete_flag.
    + apply flag_backed_down, fail_flag.
  - cbn [fst]. apply (flag_backed_frame w _ H); unfold onClose; now split_tests.
Qed.

Lemma run_flag_backed (es : list Event) (w : World) :
  flag_backed w -> flag_backed (fst (run es w)).
Proof.
  revert w. induction es as [|e es IH]; intros w H; cbn [run]; [exact H|].
  pose proof (step_flag_backed w e H) as H1.
  destruct (step w e) as [w1 o1]. cbn [fst] in H1.
  specialize (IH w1 H1). destruct (run es w1) as [w2 o2]. exact IH.
Qed.

Lemma flag_up_only_while_in_flight_aux (es : list Event) :
  isProcessing (sessionData (after es)) = true -> tasks (after es) <> [].
Proof. apply (run_flag_backed es connection). now apply flag_backed_down. Qed.

(** X2. Whatever the events, clear messages and failing calls included,
    the flag [isProcessing] is up only while an invocation is suspended
    at an external call: it is never left up with nothing in flight. *)
Theorem flag_up_only_while_in_flight (es : list Event) :
  isProcessing (sessionData (after es)) = true -> tasks (after es) <> [].
Proof. apply (run_flag_backed es connection). now apply flag_backed_down. Qed.

Lemma flag_up_only_while_in_flight_witness :
  tasks (after [EMessage (audioMsg (silence 4000)); ETimer 0]) <> [].
Proof.
  exact (flag_up_only_while_in_flight
           [EMessage (audioMsg (silence 4000)); ETimer 0] eq_refl).
Defined.

(** ** The language pair *)

Lemma orElse_nonempty (x : option string) (d : string) : d <> "" -> orElse x d <> "".
Proof.
  intros Hd. unfold orElse, truthy. destruct x as [s|]; [|exact Hd].
  destruct (String.eqb_spec s ""); cbn; assumption.
Qed.

Lemma languages_frame (w w' : World) :
  languages_set w ->
  sourceLanguage (sessionData w') = sourceLanguage (sessionData w) ->
  targetLanguage (sessionData w') = targetLanguage (sessionData w) ->
  languages_set w'.
Proof. unfold languages_set. intros H -> ->. exact H. Qed.

Lemma scheduleProcessing_languages (w : World) :
  sourceLanguage (sessionData (scheduleProcessing w)) = sourceLanguage (sessionData w)
  /\ targetLanguage (sessionData (scheduleProcessing w)) = targetLanguage (sessionData w).
Proof. unfold scheduleProcessing. now split_tests. Qed.

Lemma processAudioStream_languages (final : bool) (k : Caller) (w : World) :
  sourceLanguage (sessionData (snd (fst (processAudioStream final k w))))
  = sourceLanguage (sessionData w)
  /\ targetLanguage (sessionData (snd (fst (processAudioStream final k w))))
     = targetLanguage (sessionData w).
Proof. unfold processAudioStream. now split_tests. Qed.

Lemma processAudioStream_language_given (final : bool) (k : Caller) (w : World) :
  languages_set w -> Forall language_given (snd (processAudioStream final k w)).
Proof.
  intros [Hs _]. unfold processAudioStream. split_tests; cbn [snd]; now repeat constructor.
Qed.

Lemma afterAwait_languages (k : Caller) (w : World) :
  sourceLanguage (sessionData (afterAwait k w)) = sourceLanguage (sessionData w)
  /\ targetLanguage (sessionData (afterAwait k w)) = targetLanguage (sessionData w).
Proof.
  destruct k; cbn [afterAwait]; [|now split].
  destruct (_ <? _)%nat; [apply scheduleProcessing_languages | now split].
Qed.

Lemma complete_languages (t : Task) (w : World) :
  languages_set w -> languages_set (complete t w).
Proof.
  intros H. unfold complete.
  apply (languages_frame w _ H); [rewrite (proj1 (afterAwait_languages _ _))
                                 | rewrite (proj2 (afterAwait_languages _ _))];
    cbn; now destruct (isFinal t).
Qed.

Lemma fail_languages (t : Task) (w : World) :
  languages_set w -> languages_set (fst (fail t w)).
Proof.
  intros H. unfold fail. cbn [fst].
  apply (languages_frame w _ H); [rewrite (proj1 (afterAwait_languages _ _))
                                 | rewrite (proj2 (afterAwait_languages _ _))];
    reflexivity.
Qed.

Lemma cancelTimer_languages (w : World) :
  languages_set w -> languages_set (cancelTimer w).
Proof.
  intros H. apply (languages_frame w _ H); now rewrite (proj1 (cancelTimer_session w)).
Qed.

Lemma onMessage_languages (m : Message) (w : World) :
  languages_set w ->
  languages_set (fst (onMessage m w)) /\ Forall language_given (snd (onMessage m w)).
Proof.
  intros H. unfold onMessage.
  destruct (audioBranch m w) as [w1|] eqn:Ea; [|split; [exact H | constructor]].
  assert (H1 : languages_set w1).
  { unfold audioBranch in Ea. destruct (mtype m =? "audio"); [|now injection Ea as <-].
    destruct (audio m); [|discriminate]. injection Ea as <-.
    assert (languages_set (upd_session (fun s =>
              set_targetLanguage (orElse (msgTargetLanguage m) "en")
                (set_sourceLanguage (orElse (msgSourceLanguage m) "zh")
                   (set_audioChunks (audioChunks s ++ [b]) s))) w)).
    { split; cbn; apply orElse_nonempty; discriminate. }
    destruct (negb _); [|assumption].
    eapply languages_frame; [eassumption | apply scheduleProcessing_languages ..]. }
  assert (H2 : languages_set (configBranch m w1)).
  { unfold configBranch. destruct (_ =? _); [|exact H1].
    split; cbn; apply orElse_nonempty; discriminate. }
  assert (Hc : forall w3, languages_set w3 -> languages_set (clearBranch m w3)).
  { intros w3 H3. unfold clearBranch. destruct (_ =? _); [|exact H3].
    apply cancelTimer_languages. now apply (languages_frame w3 _ H3). }
  unfold stopBranch. destruct (mtype m =? "stop"); cbn [fst snd];
    [|split; [now apply Hc | constructor]].
  pose proof (cancelTimer_languages _ H2) as H3.
  pose proof (processAudioStream_languages true FromStop (cancelTimer (configBranch m w1)))
    as [Hs Ht].
  pose proof (processAudioStream_language_given true FromStop _ H3) as Ho.
  destruct (processAudioStream true FromStop _) as [[[|] w2] out]; cbn [fst snd] in *.
  - split; [|exact Ho]. apply Hc.
    apply (languages_frame _ _ H3); [rewrite (proj1 (afterAwait_languages _ _))
                                    | rewrite (proj2 (afterAwait_languages _ _))];
      assumption.
  - split; [|exact Ho]. now apply (languages_frame _ _ H3).
Qed.

Lemma step_languages (w : World) (e : Event) :
  languages_set w ->
  languages_set (fst (step w e)) /\ Forall language_given (snd (step w e)).
Proof.
  intros H. destruct e as [m| |h|i r|i r|]; cbn [step].
  - now apply onMessage_languages.
  - split; [exact H | constructor].
  - destruct (existsb _ _); [|split; [exact H | constructor]].
    unfold timerCallback.
    set (w1 := upd_session (set_processingTimer None) (clearTimeout h w)).
    assert (H1 : languages_set w1) by now apply (languages_frame w _ H).
    destruct (_ && _); [|split; [exact H1 | constructor]].
    pose proof (processAudioStream_languages false FromTimer w1) as [Hs Ht].
    pose proof (processAudioStream_language_given false FromTimer w1 H1) as Ho.
    destruct (processAudioStream false FromTimer w1) as [[[|] w2] out]; cbn [fst snd] in *.
    + split; [|exact Ho].
      apply (languages_frame _ _ H1); [rewrite (proj1 (afterAwait_languages _ _))
                                      | rewrite (proj2 (afterAwait_languages _ _))];
        assumption.
    + split; [|exact Ho]. now apply (languages_frame _ _ H1).
  - destruct (findTask i w) as [t|]; [|split; [exact H | constructor]].
    destruct (awaiting t); [|split; [exact H | constructor]].
    assert (H1 : languages_set (dropTask i w)) by now apply (languages_frame w _ H).
    destruct r as [x|]; cbn [onTranscribed].
    + destruct (_ && _); cbn [fst snd].
      * split; [now apply (languages_frame w _ H) | now repeat constructor].
      * split; [now apply complete_languages | constructor].
    + split; [now apply fail_languages | now repeat constructor].
  - destruct (findTask i w) as [t|]; [|split; [exact H | constructor]].
    destruct (awaiting t); [split; [exact H | constructor]|].
    assert (H1 : languages_set (dropTask i w)) by now apply (languages_frame w _ H).
    destruct r as [x|]; cbn [onTranslated fst snd].
    + split; [|now repeat constructor].
      apply complete_languages. now apply (languages_frame _ _ H1).
    + split; [now apply fail_languages | now repeat constructor].
  - split; [|constructor]. cbn [fst].
    apply (languages_frame w _ H); unfold onClose; now split_tests.
Qed.

Lemma run_languages (es : list Event) (w : World) :
  languages_set w ->
  languages_set (fst (run es w)) /\ Forall language_given (snd (run es w)).
Proof.
  revert w. induction es as [|e es IH]; intros w H; cbn [run];
    [split; [exact H | constructor]|].
  pose proof (step_languages w e H) as [H1 Ho].
  destruct (step w e) as [w1 o1]. cbn [fst snd] in *.
  specialize (IH w1 H1). destruct (run es w1) as [w2 o2]. cbn [fst snd] in *.
  split; [apply IH | apply Forall_app; split; [exact Ho | apply IH]].
Qed.

Lemma message_sets_languages (m : Message) (w : World) :
  mtype m = "config" \/ (mtype m = "audio" /\ audio m <> None) ->
  sourceLanguage (sessionData (fst (step w (EMessage m))))
  = orElse (msgSourceLanguage m) "zh"
  /\ targetLanguage (sessionData (fst (step w (EMessage m))))
     = orElse (msgTargetLanguage m) "en".
Proof.
  intros [E | [E Ha]]; cbn [step];
    unfold onMessage, audioBranch, configBranch, stopBranch, clearBranch; rewrite E;
    cbn [String.eqb Ascii.eqb Bool.eqb fst].
  - now split.
  - destruct (audio m) as [b|]; [|contradiction]. cbn [fst].
    destruct (negb _); [|now split].
    rewrite (proj1 (scheduleProcessing_languages _)),
      (proj2 (scheduleProcessing_languages _)). now split.
Qed.

Lemma orElse_default (x : option string) (d : string) :
  x = None \/ x = Some "" -> orElse x d = d.
Proof. now intros [-> | ->]. Qed.

Lemma orElse_given (c d : string) : c <> "" -> orElse (Some c) d = c.
Proof.
  intros Hc. unfold orElse, truthy. now destruct (String.eqb_spec c "").
Qed.

(** X3. For messages whose language fields are absent or strings: the
    session's language codes are never empty and every transcription call
    is given a non-empty language, because a config message, or an audio
    message whose audio decodes, stores the default ("zh" for the source,
    "en" for the target) when the code is missing or empty, and the code
    itself otherwise. *)
Theorem languages_never_empty (es : list Event) :
  sourceLanguage (sessionData (after es)) <> ""
  /\ targetLanguage (sessionData (after es)) <> ""
  /\ Forall language_given (outputs es)
  /\ (forall m,
        mtype m = "config" \/ (mtype m = "audio" /\ audio m <> None) ->
        (msgSourceLanguage m = None \/ msgSourceLanguage m = Some "" ->
         sourceLanguage (sessionData (fst (step (after es) (EMessage m)))) = "zh")
        /\ (forall c, msgSourceLanguage m = Some c -> c <> "" ->
            sourceLanguage (sessionData (fst (step (after es) (EMessage m)))) = c)
        /\ (msgTargetLanguage m = None \/ msgTargetLanguage m = Some "" ->
            targetLanguage (sessionData (fst (step (after es) (EMessage m)))) = "en")
        /\ (forall c, msgTargetLanguage m = Some c -> c <> "" ->
            targetLanguage (sessionData (fst (step (after es) (EMessage m)))) = c)).
Proof.
  destruct (run_languages es connection) as [[Hs Ht] Ho].
  - split; discriminate.
  - split; [exact Hs|]. split; [exact Ht|]. split; [exact Ho|].
    intros m Hm. destruct (message_sets_languages m (after es) Hm) as [Es Et].
    rewrite Es, Et. split; [|split; [|split]].
    + apply orElse_default.
    + intros c ->. apply orElse_given.
    + apply orElse_default.
    + intros c ->. apply orElse_given.
Qed.

Lemma languages_never_empty_witness :
  sourceLanguage (sessionData (fst (step (after [EMessage (audioMsg (silence 4))])
     (EMessage (mkMessage "config" None (Some "") (Some "fr")))))) = "zh"
  /\ targetLanguage (sessionData (fst (step (after [EMessage (audioMsg (silence 4))])
     (EMessage (mkMessage "config" None (Some "") (Some "fr")))))) = "fr".
Proof.
  pose proof (proj2 (proj2 (proj2 (languages_never_empty
    [EMessage (audioMsg (silence 4))]))) (mkMessage "config" None (Some "") (Some "fr"))
    (or_introl eq_refl)) as (Hs & _ & _ & Ht).
  split; [exact (Hs (or_intror eq_refl)) | refine (Ht "fr" eq_refl _); discriminate].
Defined.

(** ** What the messages sent can be *)

Lemma texts_nonempty_frame (w w' : World) :
  texts_nonempty w -> tasks w' = tasks w -> texts_nonempty w'.
Proof. unfold texts_nonempty. intros H ->. exact H. Qed.

Lemma dropTask_texts (i : nat) (w : World) :
  texts_nonempty w -> texts_nonempty (dropTask i w).
Proof.
  unfold texts_nonempty. intros H. cbn [dropTask tasks].
  apply Forall_forall. intros t Hin. apply filter_In in Hin as [Hin _].
  revert t Hin. now apply Forall_forall.
Qed.

Lemma truthy_nonempty (s : string) : truthy s = true -> s <> "".
Proof. unfold truthy. destruct (String.eqb_spec s ""); [discriminate | auto]. Qed.

Lemma processAudioStream_texts (final : bool) (k : Caller) (w : World) :
  texts_nonempty w ->
  texts_nonempty (snd (fst (processAudioStream final k w)))
  /\ Forall source_nonempty (snd (processAudioStream final k w)).
Proof.
  intros H. unfold processAudioStream.
  destruct (_ || _); [split; [exact H | constructor]|].
  destruct (_ && _); cbn [fst snd]; [split; [exact H | constructor]|].
  split; [|now repeat constructor].
  unfold texts_nonempty. cbn. apply Forall_app. split; [exact H | now repeat constructor].
Qed.

Lemma afterAwait_texts (k : Caller) (w : World) :
  texts_nonempty w -> texts_nonempty (afterAwait k w).
Proof. intros H. apply (texts_nonempty_frame w _ H). apply afterAwait_tasks. Qed.

Lemma step_texts (w : World) (e : Event) :
  texts_nonempty w ->
  texts_nonempty (fst (step w e)) /\ Forall source_nonempty (snd (step w e)).
Proof.
  intros H. destruct e as [m| |h|i r|i r|]; cbn [step].
  - unfold onMessage.
    destruct (audioBranch m w) as [w1|] eqn:Ea; [|split; [exact H | constructor]].
    assert (H1 : texts_nonempty (configBranch m w1)).
    { apply (texts_nonempty_frame w _ H).
      rewrite (proj1 (configBranch_tasks m w1)). now apply (audioBranch_tasks m w w1). }
    unfold stopBranch. destruct (mtype m =? "stop"); cbn [fst snd].
    + assert (H2 : texts_nonempty (cancelTimer (configBranch m w1)))
        by (apply (texts_nonempty_frame _ _ H1); apply cancelTimer_session).
      pose proof (processAudioStream_texts true FromStop _ H2) as [H3 Ho].
      destruct (processAudioStream true FromStop _) as [[[|] w2] out]; cbn [fst snd] in *.
      * split; [|exact Ho].
        apply (texts_nonempty_frame _ _ (afterAwait_texts FromStop w2 H3)).
        apply clearBranch_tasks.
      * now split.
    + split; [|constructor]. apply (texts_nonempty_frame _ _ H1). apply clearBranch_tasks.
  - split; [exact H | constructor].
  - destruct (existsb _ _); [|split; [exact H | constructor]].
    unfold timerCallback.
    set (w1 := upd_session (set_processingTimer None) (clearTimeout h w)).
    assert (H1 : texts_nonempty w1) by now apply (texts_nonempty_frame w _ H).
    destruct (_ && _); [|split; [exact H1 | constructor]].
    pose proof (processAudioStream_texts false FromTimer w1 H1) as [H2 Ho].
    destruct (processAudioStream false FromTimer w1) as [[[|] w2] out]; cbn [fst snd] in *.
    + split; [now apply afterAwait_texts | exact Ho].
    + now split.
  - destruct (findTask i w) as [t|]; [|split; [exact H | constructor]].
    destruct (awaiting t); [|split; [exact H | constructor]].
    pose proof (dropTask_texts i w H) as H1.
    destruct r as [x|]; cbn [onTranscribed].
    + destruct (truthy (orElse x "")) eqn:Et; cbn [andb].
      * destruct (negb _); cbn [fst snd].
        -- split; [|now repeat constructor].
           unfold texts_nonempty. cbn. apply Forall_app. split; [exact H1|].
           repeat constructor. cbn. now apply truthy_nonempty.
        -- split; [|constructor]. unfold complete. apply afterAwait_texts.
           now apply (texts_nonempty_frame _ _ H1).
      * cbn [fst snd]. split; [|constructor]. unfold complete. apply afterAwait_texts.
        now apply (texts_nonempty_frame _ _ H1).
    + split; [|now repeat constructor]. unfold fail. cbn [fst]. apply afterAwait_texts.
      now apply (texts_nonempty_frame _ _ H1).
  - destruct (findTask i w) as [t|] eqn:F; [|split; [exact H | constructor]].
    destruct (awaiting t) as [b|n] eqn:Ea; [split; [exact H | constructor]|].
    pose proof (dropTask_texts i w H) as H1.
    assert (Hn : n <> "").
    { destruct (findTask_tid i t w F) as [_ Hin].
      pose proof (proj1 (Forall_forall _ _) H t Hin) as Ht. cbn in Ht. now rewrite Ea in Ht. }
    destruct r as [x|]; cbn [onTranslated fst snd].
    + split; [|now repeat constructor]. unfold complete. apply afterAwait_texts.
      now apply (texts_nonempty_frame _ _ H1).
    + split; [|now repeat constructor]. unfold fail. cbn [fst]. apply afterAwait_texts.
      now apply (texts_nonempty_frame _ _ H1).
  - split; [|constructor]. cbn [fst].
    apply (texts_nonempty_frame w _ H); unfold onClose; now split_tests.
Qed.

Lemma run_texts (es : list Event) (w : World) :
  texts_nonempty w -> Forall source_nonempty (snd (run es w)).
Proof.
  revert w. induction es as [|e es IH]; intros w H; cbn [run]; [constructor|].
  pose proof (step_texts w e H) as [H1 Ho].
  destruct (step w e) as [w1 o1]. cbn [fst snd] in *.
  specialize (IH w1 H1). destruct (run es w1) as [w2 o2]. cbn [snd] in *.
  apply Forall_app. now split.
Qed.

(** X4. The server never sends a transcription message with an empty
    source text: an absent or empty transcript ends the invocation before
    the translation is asked for. *)
Theorem transcription_source_never_empty (es : list Event) :
  Forall source_nonempty (outputs es).
Proof. apply run_texts. constructor. Qed.

Lemma processAudioStream_no_error (final : bool) (k : Caller) (w : World) :
  Forall (fun o => is_error o = false) (snd (processAudioStream final k w)).
Proof. unfold processAudioStream. split_tests; cbn [snd]; now repeat constructor. Qed.

Lemma step_no_error (w : World) (e : Event) :
  throws e = false -> Forall (fun o => is_error o = false) (snd (step w e)).
Proof.
  intros Ht. destruct e as [m| |h|i r|i r|]; cbn [step]; try constructor.
  - unfold onMessage. destruct (audioBranch m w) as [w1|]; [|constructor].
    unfold stopBranch. destruct (mtype m =? "stop"); cbn [fst snd]; [|constructor].
    pose proof (processAudioStream_no_error true FromStop
                  (cancelTimer (configBranch m w1))) as Ho.
    now destruct (processAudioStream true FromStop _) as [[[|] w2] out].
  - destruct (existsb _ _); [|constructor]. unfold timerCallback.
    destruct (_ && _); [|constructor].
    pose proof (processAudioStream_no_error false FromTimer
                  (upd_session (set_processingTimer None) (clearTimeout h w))) as Ho.
    now destruct (processAudioStream false FromTimer _) as [[[|] w2] out].
  - destruct (findTask i w) as [t|]; [|constructor]. destruct (awaiting t); [|constructor].
    destruct r as [x|]; [|discriminate]. cbn [onTranscribed].
    destruct (_ && _); cbn [snd]; now repeat constructor.
  - destruct (findTask i w) as [t|]; [|constructor]. destruct (awaiting t); [constructor|].
    destruct r as [x|]; [|discriminate]. cbn [onTranslated snd]. now repeat constructor.
Qed.

(** X5. An error message is sent only when an external call throws: in a
    run where every transcription and chat call is answered, whatever the
    messages and timers, no error message is sent. *)
Theorem no_error_without_failure (es : list Event) (w : World) :
  forallb (fun e => negb (throws e)) es = true ->
  Forall (fun o => is_error o = false) (snd (run es w)).
Proof.
  revert w. induction es as [|e es IH]; intros w H; cbn [run]; [constructor|].
  cbn in H. apply Bool.andb_true_iff in H as [He H]. apply Bool.negb_true_iff in He.
  pose proof (step_no_error w e He) as Ho.
  destruct (step w e) as [w1 o1]. cbn [snd] in *.
  specialize (IH w1 H). destruct (run es w1) as [w2 o2]. cbn [snd] in *.
  apply Forall_app. now split.
Qed.

Lemma no_error_without_failure_witness :
  Forall (fun o => is_error o = false)
    (snd (run [EMessage (audioMsg (silence 4000)); ETimer 0;
               ETranscribed 0 (TranscribeOk (Some "hello"));
               ETranslated 0 (ChatOk None); EMessage (stopMsg None)] connection)).
Proof.
  exact (no_error_without_failure
           [EMessage (audioMsg (silence 4000)); ETimer 0;
            ETranscribed 0 (TranscribeOk (Some "hello"));
            ETranslated 0 (ChatOk None); EMessage (stopMsg None)] connection eq_refl).
Defined.

(** ** One thing per turn, and the counts that follow *)

Lemma processAudioStream_turn (final : bool) (k : Caller) (w : World) :
  Turn w (snd (fst (processAudioStream final k w))) (snd (processAudioStream final k w)).
Proof.
  unfold processAudioStream. destruct (_ || _); [now apply TurnQuiet|].
  destruct (_ && _); cbn [fst snd]; [now apply TurnQuiet|].
  eapply TurnStart; [| reflexivity | reflexivity]. reflexivity.
Qed.

Lemma Turn_frame (w0 w w' w'' : World) (out : list Output) :
  tasks w = tasks w0 -> tasks w'' = tasks w' -> Turn w w' out -> Turn w0 w'' out.
Proof.
  intros E0 E2 T.
  assert (Hf : forall i, findTask i w0 = findTask i w)
    by (intros i; unfold findTask; now rewrite E0).
  assert (Hd : forall i, tasks (dropTask i w0) = tasks (dropTask i w))
    by (intros i; cbn [dropTask tasks]; now rewrite E0).
  destruct T as [Ht Ho | t i b l Ha Ht Ho | t t' i s u F Ha Ha' Ht Ho | t i F Ha Ht Ho
                | t i msg F Ht Ho | t i s u f F Ha Ht Ho].
  - apply TurnQuiet; congruence.
  - apply (TurnStart _ _ _ t i b l Ha); congruence.
  - apply (TurnTranslate _ _ _ t t' i s u); try assumption;
      [rewrite Hf; exact F | rewrite Hd; congruence].
  - apply (TurnSkip _ _ _ t i); try assumption;
      [rewrite Hf; exact F | rewrite Hd; congruence].
  - apply (TurnFail _ _ _ t i msg); try assumption;
      [rewrite Hf; exact F | rewrite Hd; congruence].
  - apply (TurnEmit _ _ _ t i s u f); try assumption;
      [rewrite Hf; exact F | rewrite Hd; congruence].
Qed.

Lemma step_turn (w : World) (e : Event) : Turn w (fst (step w e)) (snd (step w e)).
Proof.
  destruct e as [m| |h|i r|i r|]; cbn [step].
  - unfold onMessage. destruct (audioBranch m w) as [w1|] eqn:Ea; [|now apply TurnQuiet].
    pose proof (proj1 (audioBranch_tasks m w w1 Ea)) as E1.
    pose proof (proj1 (configBranch_tasks m w1)) as E2.
    unfold stopBranch. destruct (mtype m =? "stop"); cbn [fst snd].
    + pose proof (processAudioStream_turn true FromStop (cancelTimer (configBranch m w1)))
        as T.
      assert (E3 : tasks (cancelTimer (configBranch m w1)) = tasks w).
      { rewrite (proj1 (proj2 (cancelTimer_session _))). congruence. }
      destruct (processAudioStream true FromStop _) as [[[|] w2] out]; cbn [fst snd] in *.
      * apply (Turn_frame w _ w2 _ out E3); [|exact T].
        rewrite (proj1 (clearBranch_tasks _ _)). apply afterAwait_tasks.
      * now apply (Turn_frame w _ w2 _ out E3).
    + apply TurnQuiet; [|reflexivity].
      rewrite (proj1 (clearBranch_tasks _ _)). congruence.
  - now apply TurnQuiet.
  - destruct (existsb _ _); [|now apply TurnQuiet]. unfold timerCallback.
    set (w1 := upd_session (set_processingTimer None) (clearTimeout h w)).
    destruct (_ && _); [|now apply TurnQuiet].
    pose proof (processAudioStream_turn false FromTimer w1) as T.
    destruct (processAudioStream false FromTimer w1) as [[[|] w2] out]; cbn [fst snd] in *.
    + apply (Turn_frame w w1 w2 _ out eq_refl); [apply afterAwait_tasks | exact T].
    + now apply (Turn_frame w w1 w2 _ out eq_refl).
  - destruct (findTask i w) as [t|] eqn:F; [|now apply TurnQuiet].
    destruct (awaiting t) eqn:Ea; [|now apply TurnQuiet].
    assert (Ha : awaits_transcription t = true) by (unfold awaits_transcription; now rewrite Ea).
    destruct (findTask_tid i t w F) as [Ei _].
    destruct r as [x|]; cbn [onTranscribed].
    + destruct (_ && _); cbn [fst snd].
      * subst i.
        eapply (TurnTranslate _ _ _ t
                  (mkTask (tid t) (AwaitTranslation (orElse x "")) (isFinal t) (caller t))
                  (tid t) _ _ F Ha); reflexivity.
      * apply (TurnSkip _ _ _ t i F Ha); [|reflexivity].
        unfold complete. now rewrite (proj1 (afterAwait_tasks _ _)).
    + unfold fail. cbn [fst snd]. rewrite Ei.
      eapply (TurnFail _ _ _ t i _ F); [|reflexivity].
      now rewrite (proj1 (afterAwait_tasks _ _)).
  - destruct (findTask i w) as [t|] eqn:F; [|now apply TurnQuiet].
    destruct (awaiting t) eqn:Ea; [now apply TurnQuiet|].
    assert (Ha : awaits_transcription t = false)
      by (unfold awaits_transcription; now rewrite Ea).
    destruct (findTask_tid i t w F) as [Ei _].
    destruct r as [x|]; cbn [onTranslated fst snd].
    + rewrite Ei. eapply (TurnEmit _ _ _ t i _ _ _ F Ha); [|reflexivity].
      unfold complete. now rewrite (proj1 (afterAwait_tasks _ _)).
    + unfold fail. cbn [fst snd]. rewrite Ei.
      eapply (TurnFail _ _ _ t i _ F); [|reflexivity].
      now rewrite (proj1 (afterAwait_tasks _ _)).
  - apply TurnQuiet; [|reflexivity]. cbn [fst]. unfold onClose. now split_tests.
Qed.

Lemma dropped_le (q : Task -> bool) (i : nat) (l : list Task) :
  List.length (filter q (filter (fun t => negb (tid t =? i)%nat) l))
  <= List.length (filter q l).
Proof.
  induction l as [|a l IH]; cbn; [lia|].
  destruct (tid a =? i)%nat; cbn; destruct (q a); cbn; lia.
Qed.

Lemma dropped_lt (q : Task -> bool) (i : nat) (l : list Task) (t : Task) :
  find (fun t => (tid t =? i)%nat) l = Some t -> q t = true ->
  S (List.length (filter q (filter (fun t => negb (tid t =? i)%nat) l)))
  <= List.length (filter q l).
Proof.
  induction l as [|a l IH]; cbn; [discriminate|].
  destruct (tid a =? i)%nat eqn:E; cbn.
  - intros [= ->] Hq. rewrite Hq. cbn. pose proof (dropped_le q i l). lia.
  - intros F Hq. specialize (IH F Hq). destruct (q a); cbn; lia.
Qed.

Section Balance.
(** [a] counts what is produced, [b] what it is paid with, [q] the
    suspended invocations that may still produce. *)
Variables (a b : Output -> bool) (q : Task -> bool).
Hypothesis turn_balance : forall w w' out,
  Turn w w' out -> count a out + pending q w' <= pending q w + count b out.

Lemma run_balance (es : list Event) (w : World) :
  count a (snd (run es w)) + pending q (fst (run es w))
  <= pending q w + count b (snd (run es w)).
Proof.
  revert w. induction es as [|e es IH]; intros w; cbn [run]; [cbn; lia|].
  pose proof (turn_balance _ _ _ (step_turn w e)) as Hs.
  destruct (step w e) as [w1 o1]. cbn [fst snd] in *.
  specialize (IH w1). destruct (run es w1) as [w2 o2]. cbn [fst snd] in *.
  unfold count in *. rewrite !filter_app, !length_app. lia.
Qed.
End Balance.

Ltac turn_cases T :=
  destruct T as [Ht Ho | t i b l Ha Ht Ho | t t' i s u F Ha Ha' Ht Ho | t i F Ha Ht Ho
                | t i msg F Ht Ho | t i s u f F Ha Ht Ho];
  unfold pending, count; rewrite Ht, Ho; cbn [filter List.length dropTask tasks];
  rewrite ?filter_app, ?length_app; cbn [filter List.length].

Lemma sends_balance (w w' : World) (out : list Output) :
  Turn w w' out ->
  count is_send out + pending (fun _ => true) w'
  <= pending (fun _ => true) w + count is_transcribe_call out.
Proof.
  intros T. turn_cases T; cbn; try lia.
  - pose proof (dropped_lt (fun _ => true) i (tasks w) t F eq_refl). cbn. lia.
  - pose proof (dropped_le (fun _ => true) i (tasks w)). lia.
  - pose proof (dropped_lt (fun _ => true) i (tasks w) t F eq_refl). lia.
  - pose proof (dropped_lt (fun _ => true) i (tasks w) t F eq_refl). lia.
Qed.

Lemma chats_balance (w w' : World) (out : list Output) :
  Turn w w' out ->
  count is_chat_call out + pending awaits_transcription w'
  <= pending awaits_transcription w + count is_transcribe_call out.
Proof.
  intros T. turn_cases T; cbn; rewrite ?Ha, ?Ha'; cbn; try lia.
  - pose proof (dropped_lt awaits_transcription i (tasks w) t F Ha). lia.
  - pose proof (dropped_le awaits_transcription i (tasks w)). lia.
  - pose proof (dropped_le awaits_transcription i (tasks w)). lia.
  - pose proof (dropped_le awaits_transcription i (tasks w)). lia.
Qed.

Lemma transcriptions_balance (w w' : World) (out : list Output) :
  Turn w w' out ->
  count is_transcription out + pending (fun t => negb (awaits_transcription t)) w'
  <= pending (fun t => negb (awaits_transcription t)) w + count is_chat_call out.
Proof.
  intros T. turn_cases T; cbn; rewrite ?Ha, ?Ha'; cbn; try lia.
  - pose proof (dropped_le (fun t => negb (awaits_transcription t)) i (tasks w)). lia.
  - pose proof (dropped_le (fun t => negb (awaits_transcription t)) i (tasks w)). lia.
  - pose proof (dropped_le (fun t => negb (awaits_transcription t)) i (tasks w)). lia.
  - assert (Hq : negb (awaits_transcription t) = true) by now rewrite Ha.
    pose proof (dropped_lt (fun t => negb (awaits_transcription t)) i (tasks w) t F Hq). lia.
Qed.

(** X6. In every run from a new connection the server sends no more
    messages than it has made transcription calls, makes no more chat
    (translation) calls than transcription calls, and sends no more
    transcription messages than it has made chat calls. *)
Theorem messages_bounded_by_calls (es : list Event) :
  count is_send (outputs es) <= count is_transcribe_call (outputs es)
  /\ count is_chat_call (outputs es) <= count is_transcribe_call (outputs es)
  /\ count is_transcription (outputs es) <= count is_chat_call (outputs es).
Proof.
  pose proof (run_balance _ _ _ sends_balance es connection) as H1.
  pose proof (run_balance _ _ _ chats_balance es connection) as H2.
  pose proof (run_balance _ _ _ transcriptions_balance es connection) as H3.
  unfold outputs. cbn [pending connection tasks filter List.length] in *. lia.
Qed.

(** ** A final result ends the utterance *)

Lemma processAudioStream_no_send (final : bool) (k : Caller) (w : World) :
  Forall (fun o => is_send o = false) (snd (processAudioStream final k w)).
Proof. unfold processAudioStream. split_tests; cbn [snd]; now repeat constructor. Qed.

Lemma no_send_not_in (os : list Output) (i : nat) (m : ServerMessage) :
  Forall (fun o => is_send o = false) os -> ~ In (WsSend i m) os.
Proof.
  intros H Hin. pose proof (proj1 (Forall_forall _ _) H _ Hin) as E. discriminate.
Qed.

(** X7. Whenever the server sends a transcription message marked final,
    the session has been reset in that same turn: the buffer is empty,
    [lastTranscript] and [lastTranslation] are the empty string and the
    flag is down. *)
Theorem final_transcription_resets (w : World) (e : Event) (i : nat) (s u : string) :
  In (WsSend i (Transcription s u true)) (snd (step w e)) ->
  audioChunks (sessionData (fst (step w e))) = []
  /\ lastTranscript (sessionData (fst (step w e))) = ""
  /\ lastTranslation (sessionData (fst (step w e))) = ""
  /\ isProcessing (sessionData (fst (step w e))) = false.
Proof.
  destruct e as [m| |h|j r|j r|]; cbn [step]; try (intros []).
  - unfold onMessage. destruct (audioBranch m w) as [w1|]; [|intros []].
    unfold stopBranch. destruct (mtype m =? "stop"); cbn [fst snd]; [|intros []].
    pose proof (processAudioStream_no_send true FromStop
                  (cancelTimer (configBranch m w1))) as Ho.
    destruct (processAudioStream true FromStop _) as [[[|] w2] out]; cbn [fst snd] in *;
      intros Hin; now apply no_send_not_in in Hin.
  - destruct (existsb _ _); [|intros []]. unfold timerCallback.
    destruct (_ && _); [|intros []].
    pose proof (processAudioStream_no_send false FromTimer
                  (upd_session (set_processingTimer None) (clearTimeout h w))) as Ho.
    destruct (processAudioStream false FromTimer _) as [[[|] w2] out]; cbn [fst snd] in *;
      intros Hin; now apply no_send_not_in in Hin.
  - destruct (findTask j w) as [t|]; [|intros []]. destruct (awaiting t); [|intros []].
    destruct r as [x|]; cbn [onTranscribed].
    + destruct (_ && _); cbn [snd]; [intros [Hin | []]; discriminate | intros []].
    + unfold fail. cbn [snd]. intros [Hin | []]. discriminate.
  - destruct (findTask j w) as [t|]; [|intros []]. destruct (awaiting t); [intros []|].
    destruct r as [x|]; cbn [onTranslated fst snd].
    + intros [Hin | []]. injection Hin as _ _ _ Hf.
      unfold complete. rewrite Hf. now destruct (caller t).
    + unfold fail. cbn [snd]. intros [Hin | []]. discriminate.
Qed.

Lemma final_transcription_resets_witness :
  audioChunks (sessionData (fst (step
    (after [EMessage (audioMsg (silence 4)); EMessage (stopMsg None);
            ETranscribed 0 (TranscribeOk (Some "hello"))])
    (ETranslated 0 (ChatOk (Some "bonjour")))))) = [].
Proof.
  refine (proj1 (final_transcription_resets
    (after [EMessage (audioMsg (silence 4)); EMessage (stopMsg None);
            ETranscribed 0 (TranscribeOk (Some "hello"))])
    (ETranslated 0 (ChatOk (Some "bonjour"))) 0 "hello" "bonjour" _)).
  left. reflexivity.
Defined.

(** ** The buffer between resets *)

Lemma only_timer_frame (w w' : World) :
  only_timer_tasks w -> tasks w' = tasks w -> only_timer_tasks w'.
Proof. unfold only_timer_tasks. intros H ->. exact H. Qed.

Lemma processAudioStream_only_timer (w : World) :
  only_timer_tasks w ->
  only_timer_tasks (snd (fst (processAudioStream false FromTimer w))).
Proof.
  intros H. unfold processAudioStream. destruct (_ || _); [exact H|].
  destruct (_ && _); cbn [fst snd]; [exact H|].
  unfold only_timer_tasks. cbn. apply Forall_app. split; [exact H | now repeat constructor].
Qed.

Lemma dropTask_only_timer (i : nat) (w : World) :
  only_timer_tasks w -> only_timer_tasks (dropTask i w).
Proof.
  unfold only_timer_tasks. intros H. cbn [dropTask tasks].
  apply Forall_forall. intros t Hin. apply filter_In in Hin as [Hin _].
  revert t Hin. now apply Forall_forall.
Qed.

Lemma found_timer_task (i : nat) (t : Task) (w : World) :
  only_timer_tasks w -> findTask i w = Some t -> isFinal t = false /\ caller t = FromTimer.
Proof.
  intros H F. destruct (findTask_tid i t w F) as [_ Hin].
  exact (proj1 (Forall_forall _ _) H t Hin).
Qed.

Lemma complete_timer_task (t : Task) (w : World) :
  isFinal t = false -> caller t = FromTimer ->
  audioChunks (sessionData (complete t w)) = audioChunks (sessionData w)
  /\ tasks (complete t w) = tasks w.
Proof.
  intros Hf Hk. unfold complete. rewrite Hf, Hk, afterAwait_timer_chunks.
  now rewrite (proj1 (afterAwait_tasks _ _)).
Qed.

Lemma fail_timer_task (t : Task) (w : World) :
  caller t = FromTimer ->
  audioChunks (sessionData (fst (fail t w))) = audioChunks (sessionData w)
  /\ tasks (fst (fail t w)) = tasks w.
Proof.
  intros Hk. unfold fail. cbn [fst]. rewrite Hk, afterAwait_timer_chunks.
  now rewrite (proj1 (afterAwait_tasks _ _)).
Qed.

Lemma step_keeps_buffer (w : World) (e : Event) :
  keeps_buffer e = true -> only_timer_tasks w ->
  only_timer_tasks (fst (step w e))
  /\ audioChunks (sessionData (fst (step w e)))
     = audioChunks (sessionData w) ++ receivedBy e.
Proof.
  intros Hk H. destruct e as [m| |h|i r|i r|]; cbn [step];
    try (cbn [receivedBy]; rewrite app_nil_r).
  - unfold keeps_buffer in Hk. cbn [is_stop is_clear] in Hk.
    apply Bool.andb_true_iff in Hk as [Hs Hc].
    apply Bool.negb_true_iff in Hs, Hc.
    unfold onMessage, stopBranch, clearBranch. rewrite Hs, Hc.
    pose proof (audioBranch_chunks m w) as Ha.
    destruct (audioBranch m w) as [w1|] eqn:Ea; cbn [fst].
    + split.
      * apply (only_timer_frame w _ H).
        rewrite (proj1 (configBranch_tasks m w1)). now apply (audioBranch_tasks m w w1).
      * rewrite <- Ha. unfold configBranch. now destruct (mtype m =? "config").
    + split; [exact H | now rewrite Ha, app_nil_r].
  - now split.
  - destruct (existsb _ _); [|now split]. unfold timerCallback.
    set (w1 := upd_session (set_processingTimer None) (clearTimeout h w)).
    assert (H1 : only_timer_tasks w1) by now apply (only_timer_frame w _ H).
    destruct (_ && _); [|now split].
    pose proof (processAudioStream_only_timer w1 H1) as H2.
    pose proof (processAudioStream_chunks false FromTimer w1) as Hc.
    destruct (processAudioStream false FromTimer w1) as [[[|] w2] out]; cbn [fst snd] in *.
    + split; [|now rewrite afterAwait_timer_chunks].
      apply (only_timer_frame w2 _ H2). apply afterAwait_tasks.
    + now split.
  - destruct (findTask i w) as [t|] eqn:F; [|now split].
    destruct (awaiting t); [|now split].
    destruct (found_timer_task i t w H F) as [Hf Hc].
    pose proof (dropTask_only_timer i w H) as H1.
    destruct r as [x|]; cbn [onTranscribed].
    + destruct (_ && _); cbn [fst].
      * split; [|reflexivity]. unfold only_timer_tasks. cbn.
        apply Forall_app. split; [exact H1 | now repeat constructor].
      * destruct (complete_timer_task t (dropTask i w) Hf Hc) as [E1 E2].
        split; [now apply (only_timer_frame _ _ H1) | exact E1].
    + destruct (fail_timer_task t (dropTask i w) Hc) as [E1 E2].
      split; [now apply (only_timer_frame _ _ H1) | exact E1].
  - destruct (findTask i w) as [t|] eqn:F; [|now split].
    destruct (awaiting t); [now split|].
    destruct (found_timer_task i t w H F) as [Hf Hc].
    pose proof (dropTask_only_timer i w H) as H1.
    destruct r as [x|]; cbn [onTranslated fst].
    + destruct (complete_timer_task t
        (upd_session (set_lastTranslation (orElse x "")) (dropTask i w)) Hf Hc) as [E1 E2].
      split; [now apply (only_timer_frame _ _ H1) | exact E1].
    + destruct (fail_timer_task t (dropTask i w) Hc) as [E1 E2].
      split; [now apply (only_timer_frame _ _ H1) | exact E1].
  - cbn [fst]. split; [apply (only_timer_frame w _ H)|]; unfold onClose; now split_tests.
Qed.

Lemma transcribes_is_prefix (cs rest : list Buffer) (o : Output) :
  transcribes cs o -> transcribes_prefix (cs ++ rest) o.
Proof. destruct o; cbn; try trivial. intros ->. now exists cs, rest. Qed.

Lemma run_keeps_buffer (es : list Event) (w : World) :
  forallb keeps_buffer es = true -> only_timer_tasks w ->
  audioChunks (sessionData (fst (run es w))) = audioChunks (sessionData w) ++ received es
  /\ Forall (transcribes_prefix (audioChunks (sessionData w) ++ received es))
            (snd (run es w)).
Proof.
  revert w. induction es as [|e es IH]; intros w Hk H; cbn [run].
  - cbn. rewrite app_nil_r. split; [reflexivity | constructor].
  - cbn in Hk. apply Bool.andb_true_iff in Hk as [He Hk].
    pose proof (step_keeps_buffer w e He H) as [H1 Hc].
    pose proof (step_calls w e) as Ho.
    destruct (step w e) as [w1 o1]. cbn [fst snd] in *.
    specialize (IH w1 Hk H1). destruct (run es w1) as [w2 o2]. cbn [fst snd] in *.
    destruct IH as [IHc IHo]. rewrite Hc, <- app_assoc in IHc, IHo.
    unfold received in *. cbn [flat_map]. split; [exact IHc|].
    apply Forall_app. split; [|exact IHo].
    eapply Forall_impl; [|exact Ho]. intros o. apply transcribes_is_prefix.
Qed.

(** X8. As long as the connection receives neither a stop nor a clear
    message, the buffer is exactly the sequence of chunks received since
    the connection opened, in their order of arrival (no invocation, timer
    or failure removes or repeats a chunk), and every transcription call
    is made on all the chunks received up to some point: each call covers
    the whole audio so far. *)
Theorem buffer_accumulates_received_audio (es : list Event) :
  forallb keeps_buffer es = true ->
  audioChunks (sessionData (after es)) = received es
  /\ Forall (transcribes_prefix (received es)) (outputs es).
Proof.
  intros Hk. apply (run_keeps_buffer es connection Hk). constructor.
Qed.

Lemma buffer_accumulates_received_audio_witness :
  audioChunks (sessionData (after
    [EMessage (audioMsg (silence 3000)); ETimer 0; EMessage (audioMsg (silence 1500));
     ETimer 1; ETranscribed 0 TranscribeThrows]))
  = received
    [EMessage (audioMsg (silence 3000)); ETimer 0; EMessage (audioMsg (silence 1500));
     ETimer 1; ETranscribed 0 TranscribeThrows].
Proof.
  exact (proj1 (buffer_accumulates_received_audio
    [EMessage (audioMsg (silence 3000)); ETimer 0; EMessage (audioMsg (silence 1500));
     ETimer 1; ETranscribed 0 TranscribeThrows] eq_refl)).
Defined.

(** ** Buffered audio is never left unattended *)

Lemma timer_exact_frame (w w' : World) :
  timer_exact w -> timers w' = timers w ->
  processingTimer (sessionData w') = processingTimer (sessionData w) -> timer_exact w'.
Proof. unfold timer_exact. intros H -> ->. exact H. Qed.

Lemma served_frame (w w' : World) :
  served w ->
  audioChunks (sessionData w') = audioChunks (sessionData w) ->
  processingTimer (sessionData w') = processingTimer (sessionData w) ->
  isProcessing (sessionData w') = isProcessing (sessionData w) -> served w'.
Proof. unfold served. intros H -> -> ->. exact H. Qed.

Lemma served_empty (w : World) : audioChunks (sessionData w) = [] -> served w.
Proof. unfold served. congruence. Qed.

Lemma served_flag (w : World) : isProcessing (sessionData w) = true -> served w.
Proof. unfold served. auto. Qed.

Lemma scheduleProcessing_exact (w : World) :
  timer_exact w ->
  timer_exact (scheduleProcessing w)
  /\ processingTimer (sessionData (scheduleProcessing w)) <> None.
Proof.
  unfold timer_exact, scheduleProcessing. intros H.
  destruct (processingTimer (sessionData w)) eqn:E.
  - rewrite E. split; [exact H | discriminate].
  - cbn. rewrite H. split; [reflexivity | discriminate].
Qed.

Lemma afterAwait_alive (k : Caller) (w : World) :
  timer_exact w -> timer_exact (afterAwait k w) /\ served (afterAwait k w).
Proof.
  intros H. destruct k; cbn [afterAwait].
  - destruct (0 <? List.length (audioChunks (sessionData w)))%nat eqn:E.
    + destruct (scheduleProcessing_exact w H) as [H1 H2]. split; [exact H1|].
      intros _. now left.
    + split; [exact H|]. apply served_empty.
      destruct (audioChunks (sessionData w)); [reflexivity | discriminate].
  - split; [now apply (timer_exact_frame w) | now apply served_empty].
Qed.

Lemma cancelTimer_exact (w : World) : timer_exact w -> timer_exact (cancelTimer w).
Proof.
  unfold timer_exact, cancelTimer. intros H.
  destruct (processingTimer (sessionData w)) eqn:E; [|now rewrite E].
  cbn. rewrite H. cbn. now destruct (Nat.eq_dec n n).
Qed.

Lemma processAudioStream_suspended (final : bool) (k : Caller) (w : World) :
  fst (fst (processAudioStream final k w)) = Suspended ->
  isProcessing (sessionData (snd (fst (processAudioStream final k w)))) = true.
Proof. unfold processAudioStream. split_tests; cbn; congruence. Qed.

(** A call of [processAudioStream] followed by the caller's code when it
    returns at once. *)
Lemma call_alive (final : bool) (k : Caller) (w : World) :
  timer_exact w ->
  match processAudioStream final k w with
  | (Returned, w1, _) => timer_exact (afterAwait k w1) /\ served (afterAwait k w1)
  | (Suspended, w1, _) => timer_exact w1 /\ served w1
  end.
Proof.
  intros H. pose proof (processAudioStream_timers final k w) as [Ht Hp].
  pose proof (processAudioStream_suspended final k w) as Hs.
  destruct (processAudioStream final k w) as [[[|] w1] out]; cbn [fst snd] in *.
  - apply afterAwait_alive. now apply (timer_exact_frame w).
  - split; [now apply (timer_exact_frame w) | now apply served_flag, Hs].
Qed.

Lemma clearBranch_alive (m : Message) (w : World) :
  timer_exact w -> served w ->
  timer_exact (clearBranch m w) /\ served (clearBranch m w).
Proof.
  intros H S. unfold clearBranch. destruct (mtype m =? "clear"); [|now split]. split.
  - apply cancelTimer_exact. now apply (timer_exact_frame w).
  - apply served_empty. now rewrite (proj1 (cancelTimer_session _)).
Qed.

Lemma audioBranch_alive (m : Message) (w w1 : World) :
  timer_exact w -> served w -> audioBranch m w = Some w1 ->
  timer_exact w1 /\ served w1.
Proof.
  intros H S. unfold audioBranch. destruct (mtype m =? "audio"); [|now intros [= <-]].
  destruct (audio m); [|discriminate]. intros [= <-].
  set (w0 := upd_session _ w).
  assert (H0 : timer_exact w0) by now apply (timer_exact_frame w).
  change (isProcessing (sessionData w0)) with (isProcessing (sessionData w)).
  destruct (isProcessing (sessionData w)) eqn:P; cbn [negb].
  - split; [exact H0 | now apply served_flag].
  - destruct (scheduleProcessing_exact w0 H0) as [H1 H2]. split; [exact H1|].
    intros _. now left.
Qed.

Lemma configBranch_alive (m : Message) (w : World) :
  timer_exact w -> served w ->
  timer_exact (configBranch m w) /\ served (configBranch m w).
Proof.
  intros H S. unfold configBranch. destruct (mtype m =? "config"); [|now split].
  split; [now apply (timer_exact_frame w) | now apply (served_frame w)].
Qed.

Lemma step_alive (w : World) (e : Event) :
  is_close e = false -> timer_exact w -> served w ->
  timer_exact (fst (step w e)) /\ served (fst (step w e)).
Proof.
  intros Hc H S. destruct e as [m| |h|i r|i r|]; cbn [step]; [| | | | |discriminate].
  - unfold onMessage. destruct (audioBranch m w) as [w1|] eqn:Ea; [|now split].
    destruct (audioBranch_alive m w w1 H S Ea) as [H1 S1].
    destruct (configBranch_alive m w1 H1 S1) as [H2 S2].
    unfold stopBranch. destruct (mtype m =? "stop"); cbn [fst snd];
      [|now apply clearBranch_alive].
    pose proof (call_alive true FromStop _ (cancelTimer_exact _ H2)) as Hk.
    destruct (processAudioStream true FromStop _) as [[[|] w2] out]; cbn [fst snd] in *.
    + now apply clearBranch_alive.
    + exact Hk.
  - now split.
  - destruct (existsb (Nat.eqb h) (timers w)) eqn:Hin; [|now split].
    unfold timerCallback.
    set (w1 := upd_session (set_processingTimer None) (clearTimeout h w)).
    assert (H1 : timer_exact w1).
    { unfold timer_exact in *. cbn. rewrite H in *.
      destruct (processingTimer (sessionData w)); cbn in *; [|discriminate].
      rewrite Bool.orb_false_r in Hin. apply Nat.eqb_eq in Hin. subst.
      now destruct (Nat.eq_dec n n). }
    destruct ((0 <? List.length (audioChunks (sessionData w1)))%nat
              && negb (isProcessing (sessionData w1))) eqn:G.
    + pose proof (call_alive false FromTimer w1 H1) as Hk.
      now destruct (processAudioStream false FromTimer w1) as [[[|] w2] out].
    + cbn [fst]. split; [exact H1|]. apply Bool.andb_false_iff in G as [G | G].
      * apply served_empty. destruct (audioChunks (sessionData w1));
          [reflexivity | discriminate].
      * apply served_flag. now apply Bool.negb_false_iff in G.
  - destruct (findTask i w) as [t|]; [|now split]. destruct (awaiting t); [|now split].
    assert (H1 : timer_exact (dropTask i w)) by now apply (timer_exact_frame w).
    destruct r as [x|]; cbn [onTranscribed].
    + destruct (_ && _); cbn [fst].
      * split; [now apply (timer_exact_frame w) | now apply (served_frame w)].
      * unfold complete. apply afterAwait_alive.
        apply (timer_exact_frame _ _ H1); [reflexivity|]. cbn. now destruct (isFinal t).
    + unfold fail. cbn [fst]. apply afterAwait_alive. now apply (timer_exact_frame _ _ H1).
  - destruct (findTask i w) as [t|]; [|now split]. destruct (awaiting t); [now split|].
    assert (H1 : timer_exact (dropTask i w)) by now apply (timer_exact_frame w).
    destruct r as [x|]; cbn [onTranslated fst].
    + unfold complete. apply afterAwait_alive.
      apply (timer_exact_frame _ _ H1); [reflexivity|]. cbn. now destruct (isFinal t).
    + unfold fail. cbn [fst]. apply afterAwait_alive. now apply (timer_exact_frame _ _ H1).
Qed.

Lemma run_alive (es : list Event) (w : World) :
  forallb (fun e => negb (is_close e)) es = true -> timer_exact w -> served w ->
  timer_exact (fst (run es w)) /\ served (fst (run es w)).
Proof.
  revert w. induction es as [|e es IH]; intros w Hc H S; cbn [run]; [now split|].
  cbn in Hc. apply Bool.andb_true_iff in Hc as [He Hc]. apply Bool.negb_true_iff in He.
  pose proof (step_alive w e He H S) as [H1 S1].
  destruct (step w e) as [w1 o1]. cbn [fst] in *.
  specialize (IH w1 Hc H1 S1). destruct (run es w1) as [w2 o2]. exact IH.
Qed.

(** X9. While the socket is open, audio in the buffer is never left
    unattended: whenever the buffer is non-empty, either the debounce
    timer is scheduled or an invocation is in flight, whatever the
    messages, timers, answers and failures so far. *)
Theorem buffered_audio_is_attended (es : list Event) :
  forallb (fun e => negb (is_close e)) es = true ->
  audioChunks (sessionData (after es)) <> [] ->
  timers (after es) <> [] \/ tasks (after es) <> [].
Proof.
  intros Hc Hne.
  destruct (run_alive es connection Hc) as [H S]; [reflexivity | now apply served_empty |].
  destruct (S Hne) as [Hp | Hf].
  - left. unfold timer_exact in H. unfold after. rewrite H.
    destruct (processingTimer (sessionData (fst (run es connection))));
      [discriminate | contradiction].
  - right. now apply flag_up_only_while_in_flight_aux.
Qed.

Lemma buffered_audio_is_attended_witness :
  timers (after [EMessage (audioMsg (silence 1000)); ETimer 0]) <> []
  \/ tasks (after [EMessage (audioMsg (silence 1000)); ETimer 0]) <> [].
Proof.
  refine (buffered_audio_is_attended
            [EMessage (audioMsg (silence 1000)); ETimer 0] eq_refl _).
  vm_compute. discriminate.
Defined.

(** In every state reached without a close of the socket the scheduled
    timeouts are exactly the one [processingTimer] refers to. *)
Lemma timer_exact_without_close (es : list Event) :
  forallb (fun e => negb (is_close e)) es = true -> timer_exact (after es).
Proof.
  intros Hc. apply (run_alive es connection Hc); [reflexivity | now apply served_empty].
Qed.

(** After a close the field may keep the handle of a cleared timeout:
    [scheduleProcessing] then schedules nothing, and a failed invocation
    leaves a non-empty buffer with no timeout. *)
Lemma stale_handle_after_close :
  timers (after [EMessage (audioMsg (silence 4000)); ETimer 0; EMessage clearMsg;
                 EMessage (audioMsg (silence 4000)); EClose;
                 ETranscribed 0 TranscribeThrows]) = []
  /\ processingTimer (sessionData (after
        [EMessage (audioMsg (silence 4000)); ETimer 0; EMessage clearMsg;
         EMessage (audioMsg (silence 4000)); EClose;
         ETranscribed 0 TranscribeThrows])) = Some 1
  /\ audioChunks (sessionData (after
        [EMessage (audioMsg (silence 4000)); ETimer 0; EMessage clearMsg;
         EMessage (audioMsg (silence 4000)); EClose;
         ETranscribed 0 TranscribeThrows])) = [silence 4000].
Proof. repeat split; vm_compute; reflexivity. Qed.

(** ** A call that throws *)

Lemma afterAwait_timer_fields (w : World) :
  lastTranscript (sessionData (afterAwait FromTimer w)) = lastTranscript (sessionData w)
  /\ lastTranslation (sessionData (afterAwait FromTimer w))
     = lastTranslation (sessionData w).
Proof. cbn [afterAwait]. unfold scheduleProcessing. now split_tests. Qed.

Lemma afterAwait_timer_armed (w : World) :
  audioChunks (sessionData w) <> [] ->
  processingTimer (sessionData (afterAwait FromTimer w)) <> None.
Proof.
  intros Hne. cbn [afterAwait]. destruct (audioChunks (sessionData w)); [contradiction|].
  cbn [List.length Nat.ltb Nat.leb]. unfold scheduleProcessing.
  destruct (processingTimer (sessionData w)) eqn:E; cbn; [rewrite E|]; discriminate.
Qed.

(** X10. When the call an invocation awaits throws (the transcription or
    the translation), exactly one error message is sent, with the text
    "Transcription failed" in both cases, the invocation is over and the
    flag is down; if the timer callback awaited it, the buffer,
    [lastTranscript] and [lastTranslation] are untouched, and when the
    buffer is non-empty and [processingTimer] refers to exactly the
    scheduled timeouts (as in every state reached without a close of the
    socket) a timeout is scheduled afterwards, so the session goes on. *)
Theorem failed_call_is_reported_once (w : World) (i : nat) (t : Task) :
  findTask i w = Some t ->
  snd (step w (failureOf t)) = [WsSend i (ErrorMessage "Transcription failed")]
  /\ isProcessing (sessionData (fst (step w (failureOf t)))) = false
  /\ tasks (fst (step w (failureOf t))) = tasks (dropTask i w)
  /\ (caller t = FromTimer ->
      audioChunks (sessionData (fst (step w (failureOf t)))) = audioChunks (sessionData w)
      /\ lastTranscript (sessionData (fst (step w (failureOf t))))
         = lastTranscript (sessionData w)
      /\ lastTranslation (sessionData (fst (step w (failureOf t))))
         = lastTranslation (sessionData w)
      /\ (timer_exact w -> audioChunks (sessionData w) <> [] ->
          timers (fst (step w (failureOf t))) <> [])).
Proof.
  intros F. destruct (findTask_tid i t w F) as [Ei _].
  assert (Hs : step w (failureOf t) = fail t (dropTask i w)).
  { unfold failureOf. destruct (awaiting t) eqn:Ea; cbn [step]; rewrite Ei, F, Ea;
      reflexivity. }
  rewrite Hs. unfold fail. cbn [fst snd]. rewrite Ei.
  split; [reflexivity|]. split; [now rewrite afterAwait_flag|].
  split; [now rewrite (proj1 (afterAwait_tasks _ _))|].
  intros Hk. rewrite Hk.
  rewrite afterAwait_timer_chunks, (proj1 (afterAwait_timer_fields _)),
    (proj2 (afterAwait_timer_fields _)).
  split; [reflexivity|]. split; [reflexivity|]. split; [reflexivity|].
  intros Hx Hne.
  set (w0 := upd_session (set_isProcessing false) (dropTask i w)).
  assert (H0 : timer_exact w0) by now apply (timer_exact_frame w).
  destruct (afterAwait_alive FromTimer w0 H0) as [H1 _].
  pose proof (afterAwait_timer_armed w0 Hne) as Hp.
  unfold timer_exact in H1. rewrite H1.
  destruct (processingTimer (sessionData (afterAwait FromTimer w0)));
    [discriminate | contradiction].
Qed.

Lemma failed_call_is_reported_once_witness :
  snd (step (after [EMessage (audioMsg (silence 4000)); ETimer 0;
                    ETranscribed 0 (TranscribeOk (Some "hello"))])
            (ETranslated 0 ChatThrows))
  = [WsSend 0 (ErrorMessage "Transcription failed")]
  /\ timers (fst (step (after [EMessage (audioMsg (silence 4000)); ETimer 0;
                               ETranscribed 0 (TranscribeOk (Some "hello"))])
                       (ETranslated 0 ChatThrows))) <> [].
Proof.
  pose proof (failed_call_is_reported_once
    (after [EMessage (audioMsg (silence 4000)); ETimer 0;
            ETranscribed 0 (TranscribeOk (Some "hello"))])
    0 (mkTask 0 (AwaitTranslation "hello") false FromTimer) eq_refl)
    as (Ho & _ & _ & Hk).
  split; [exact Ho|].
  destruct (Hk eq_refl) as (_ & _ & _ & Ht). apply Ht.
  - reflexivity.
  - vm_compute. discriminate.
Defined.

(** ** Change detection *)

(** X11. When the transcription of an invocation is answered: if the text
    is absent, empty or equal to [lastTranscript], nothing is sent and no
    translation is asked for, the invocation is over and the flag is
    down; otherwise [lastTranscript] becomes the text and exactly one chat
    call is made, for that text and with the session's current language
    pair, and no message is sent before it is answered. *)
Theorem transcript_change_detection (w : World) (i : nat) (t : Task) (b : Buffer)
  (x : option string) :
  findTask i w = Some t -> awaiting t = AwaitTranscription b ->
  (orElse x "" = "" \/ orElse x "" = lastTranscript (sessionData w) ->
   snd (step w (ETranscribed i (TranscribeOk x))) = []
   /\ isProcessing (sessionData (fst (step w (ETranscribed i (TranscribeOk x))))) = false
   /\ tasks (fst (step w (ETranscribed i (TranscribeOk x)))) = tasks (dropTask i w))
  /\ (orElse x "" <> "" -> orElse x "" <> lastTranscript (sessionData w) ->
      snd (step w (ETranscribed i (TranscribeOk x)))
      = [CallChat i (systemPrompt (sourceLanguage (sessionData w))
                                  (targetLanguage (sessionData w)))
                  (orElse x "")]
      /\ lastTranscript (sessionData (fst (step w (ETranscribed i (TranscribeOk x)))))
         = orElse x ""
      /\ tasks (fst (step w (ETranscribed i (TranscribeOk x))))
         = tasks (dropTask i w)
           ++ [mkTask i (AwaitTranslation (orElse x "")) (isFinal t) (caller t)]).
Proof.
  intros F Ea. destruct (findTask_tid i t w F) as [Ei _].
  cbn [step]. rewrite F, Ea. cbn [onTranscribed]. split.
  - intros Hsame.
    assert (G : truthy (orElse x "")
                && negb (orElse x "" =? lastTranscript (sessionData (dropTask i w)))
                = false).
    { destruct Hsame as [E | E]; rewrite E.
      - reflexivity.
      - cbn [dropTask sessionData]. rewrite String.eqb_refl. apply Bool.andb_false_r. }
    rewrite G. cbn [fst snd]. split; [reflexivity|].
    split; [apply complete_flag|]. unfold complete.
    now rewrite (proj1 (afterAwait_tasks _ _)).
  - intros Hne Hdiff.
    assert (G : truthy (orElse x "")
                && negb (orElse x "" =? lastTranscript (sessionData (dropTask i w)))
                = true).
    { apply Bool.andb_true_iff. split.
      - unfold truthy. now destruct (String.eqb_spec (orElse x "") "").
      - cbn [dropTask sessionData].
        now destruct (String.eqb_spec (orElse x "") (lastTranscript (sessionData w))). }
    rewrite G. cbn [fst snd]. rewrite Ei. now repeat split.
Qed.

Lemma transcript_change_detection_witness :
  snd (step (after [EMessage (audioMsg (silence 4000)); ETimer 0;
                    ETranscribed 0 (TranscribeOk (Some "hello"));
                    ETranslated 0 (ChatOk (Some "bonjour")); ETimer 1])
            (ETranscribed 1 (TranscribeOk (Some "hello")))) = [].
Proof.
  refine (proj1 (proj1 (transcript_change_detection
    (after [EMessage (audioMsg (silence 4000)); ETimer 0;
            ETranscribed 0 (TranscribeOk (Some "hello"));
            ETranslated 0 (ChatOk (Some "bonjour")); ETimer 1])
    1 (mkTask 1 (AwaitTranscription (silence 4000)) false FromTimer) (silence 4000)
    (Some "hello") _ eq_refl) (or_intror _))).
  - vm_compute. reflexivity.
  - vm_compute. reflexivity.
Defined.

(** ** Messages the handler ignores *)

(** X13. A message whose type is none of audio, config, stop and clear,
    and an audio message whose audio cannot be decoded, change nothing
    and produce nothing: the buffer, the languages, the timer and the
    flag are as before (an undecodable audio message does not even
    update the languages). *)
Theorem unusable_message_is_ignored (m : Message) (w : World) :
  known_type m = false \/ (mtype m = "audio" /\ audio m = None) ->
  step w (EMessage m) = (w, []).
Proof.
  intros [Hk | [Ht Ha]]; cbn [step]; unfold onMessage, audioBranch.
  - unfold known_type in Hk.
    apply Bool.orb_false_iff in Hk as [Hk Hc].
    apply Bool.orb_false_iff in Hk as [Hk Hs].
    apply Bool.orb_false_iff in Hk as [Ha Hg].
    unfold configBranch, stopBranch, clearBranch. now rewrite Ha, Hg, Hs, Hc.
  - rewrite Ht, Ha. reflexivity.
Qed.

Lemma unusable_message_is_ignored_witness :
  step (after [EMessage (audioMsg (silence 10))])
       (EMessage (mkMessage "audio" None (Some "fr") (Some "de")))
  = (after [EMessage (audioMsg (silence 10))], []).
Proof.
  exact (unusable_message_is_ignored (mkMessage "audio" None (Some "fr") (Some "de"))
           (after [EMessage (audioMsg (silence 10))]) (or_intror (conj eq_refl eq_refl))).
Defined.

(** ** The stop message carries nothing the server reads *)

(** X14. Two stop messages are handled alike whatever their fields: the
    stop branch reads neither the audio nor the languages of the message,
    so the session's languages and buffer are those set by earlier audio
    and config messages. *)
Theorem stop_reads_no_field (m m' : Message) (w : World) :
  mtype m = "stop" -> mtype m' = "stop" ->
  step w (EMessage m) = step w (EMessage m').
Proof. intros H H'. now rewrite (stop_message_step m w H), (stop_message_step m' w H'). Qed.

Lemma stop_reads_no_field_witness :
  step (after [EMessage (audioMsg (silence 10))])
       (EMessage (mkMessage "stop" (Some (silence 20)) (Some "fr") (Some "de")))
  = step (after [EMessage (audioMsg (silence 10))]) (EMessage (stopMsg None)).
Proof.
  exact (stop_reads_no_field
           (mkMessage "stop" (Some (silence 20)) (Some "fr") (Some "de")) (stopMsg None)
           (after [EMessage (audioMsg (silence 10))]) eq_refl eq_refl).
Defined.

(** ** The client's transcript list *)

Lemma sent_source_nonempty (os : list Output) :
  Forall source_nonempty os -> Forall message_source_nonempty (sent os).
Proof.
  induction 1 as [|o os Ho _ IH]; cbn; [constructor|].
  destruct o as [i m| |]; cbn; [|exact IH | exact IH].
  constructor; [|exact IH]. now destruct m.
Qed.

Lemma clientRun_transcripts (clock : nat -> Clock) (ms : list ServerMessage) :
  Forall message_source_nonempty ms ->
  forall (n : nat) (st : ClientState),
    map pairTexts (transcripts (clientRun clock n ms st))
    = map pairTexts (transcripts st) ++ finalResults ms.
Proof.
  induction 1 as [|m ms Hm _ IH]; intros n st; cbn [clientRun finalResults flat_map].
  - now rewrite app_nil_r.
  - rewrite IH. fold (finalResults ms). destruct m as [s u [|]|msg]; cbn [clientOnMessage].
    + cbn in Hm. unfold truthy at 1. destruct (String.eqb_spec s ""); [contradiction|].
      cbn [negb orb transcripts]. rewrite map_app, <- app_assoc. reflexivity.
    + reflexivity.
    + reflexivity.
Qed.

(** X15. Server and client together: after the client has handled all
    the messages the server sent in a run, whatever the run and the
    clock, its transcript list shows exactly the final results the
    server sent, each once and in the order sent; non-final results and
    errors never enter the list. *)
Theorem client_lists_every_final_result (es : list Event) (clock : nat -> Clock) :
  map pairTexts (transcripts (clientRun clock 0 (sent (outputs es)) clientStart))
  = finalResults (sent (outputs es)).
Proof.
  apply (clientRun_transcripts clock (sent (outputs es))).
  apply sent_source_nonempty, run_texts. constructor.
Qed.

(** On the client a final message always ends the streaming pair, a
    non-final one replaces it and leaves the transcript list alone, an
    error message changes nothing, and no message ever removes or alters
    a transcript already listed. *)
Lemma client_message_effects (c : Clock) (m : ServerMessage) (st : ClientState) :
  (exists added, transcripts (clientOnMessage c m st) = transcripts st ++ added
                 /\ List.length added <= 1
                 /\ (is_final_message m = false -> added = []))
  /\ (is_final_message m = true -> currentPair (clientOnMessage c m st) = None)
  /\ (forall s u, m = Transcription s u false ->
        option_map pairTexts (currentPair (clientOnMessage c m st)) = Some (s, u)
        /\ option_map isStreaming (currentPair (clientOnMessage c m st)) = Some true)
  /\ (forall msg, m = ErrorMessage msg -> clientOnMessage c m st = st).
Proof.
  destruct m as [s u [|]|msg]; cbn [clientOnMessage is_final_message].
  - split; [|split; [reflexivity | split; [discriminate | discriminate]]].
    destruct (truthy s || truthy u); cbn [transcripts].
    + eexists. split; [reflexivity|]. split; [cbn; lia | discriminate].
    + exists []. rewrite app_nil_r. split; [reflexivity|]. split; [cbn; lia | reflexivity].
  - split; [|split; [discriminate | split; [|discriminate]]].
    + exists []. cbn. rewrite app_nil_r. split; [reflexivity|]. split; [lia | reflexivity].
    + intros s' u' [= -> ->]. now split.
  - split; [|split; [discriminate | split; [discriminate | reflexivity]]].
    exists []. rewrite app_nil_r. split; [reflexivity|]. split; [cbn; lia | reflexivity].
Qed.
